(** * git-pend: a shallow embedding of [src/index.js]

    The program scans a directory tree for git repositories
    ([findGitRepos]), asks git for the state of each one
    ([getGitStatus]), renders a report ([formatStatus]) and exits with a
    status that tells whether work is pending ([main]).

    Conventions of the embedding.
    - A JavaScript string is a sequence of code units; [string] covers the
      code units below 256, which is all that git's porcelain output holds
      under its default quoting of path names.
    - A JavaScript number is an exact integer [Z] here (lengths, counts and
      the result of [parseInt]); [NaN] is [None].
    - A normalised absolute POSIX path is the list of its components, so
      [path.join base name] is [base ++ [name]].
    - The file system and git are read, never written: the file system is a
      tree, and [execSync] is a function from a command and a working
      directory to what the command returned or threw. *)

From Stdlib Require Import String Ascii List ZArith Bool Lia.
Import ListNotations.

Set Warnings "-register-all".

#[local] Open Scope string_scope.
#[local] Open Scope list_scope.
#[local] Open Scope Z_scope.

(** ** JavaScript string primitives *)

Module JS.

(** The code units below 256 that [String.prototype.trim] and [parseInt]
    treat as white space: TAB, LF, VT, FF, CR, SP and NBSP. *)
Definition is_ws (c : ascii) : bool :=
  match c with
  | "009"%char | "010"%char | "011"%char | "012"%char | "013"%char
  | " "%char | "160"%char => true
  | _ => false
  end.

(** The line terminators below 256, which [.] of a regular expression
    refuses: LF and CR. *)
Definition is_line_terminator (c : ascii) : bool :=
  match c with
  | "010"%char | "013"%char => true
  | _ => false
  end.

Fixpoint trimStart (s : string) : string :=
  match s with
  | String c r => if is_ws c then trimStart r else s
  | EmptyString => EmptyString
  end.

Fixpoint trimEnd (s : string) : string :=
  match s with
  | String c r =>
      match trimEnd r with
      | EmptyString => if is_ws c then EmptyString else String c EmptyString
      | r' => String c r'
      end
  | EmptyString => EmptyString
  end.

Definition trim (s : string) : string := trimEnd (trimStart s).

(** A string in a boolean position: every string but the empty one. *)
Definition truthy (s : string) : bool :=
  match s with
  | EmptyString => false
  | String _ _ => true
  end.

(** [a || b] on strings. *)
Definition or_string (a b : string) : string :=
  if truthy a then a else b.

(** [s.split(c)] for a one-character separator: never the empty list. *)
Fixpoint split (sep : ascii) (s : string) : list string :=
  match s with
  | EmptyString => [EmptyString]
  | String c r =>
      if Ascii.eqb c sep then EmptyString :: split sep r
      else match split sep r with
           | h :: t => String c h :: t
           | [] => [String c EmptyString]
           end
  end.

Definition startsWith (s p : string) : bool := String.prefix p s.

(** The value of a decimal digit: the code units 48 to 57. *)
Definition digit (c : ascii) : option Z :=
  let code := Z.of_nat (nat_of_ascii c) in
  if (48 <=? code) && (code <=? 57) then Some (code - 48) else None.

(** The longest prefix of decimal digits, [None] when there is none. *)
Fixpoint digits (acc : option Z) (s : string) : option Z :=
  match s with
  | String c r =>
      match digit c with
      | Some d => digits (Some (10 * match acc with Some a => a | None => 0 end + d)) r
      | None => acc
      end
  | EmptyString => acc
  end.

(** [parseInt(s, 10)]: leading white space, an optional sign, digits. *)
Definition parseInt (s : string) : option Z :=
  match trimStart s with
  | String "-"%char r => option_map Z.opp (digits None r)
  | String "+"%char r => digits None r
  | r => digits None r
  end.

(** [n || d] on numbers: [NaN] and [0] are falsy. *)
Definition or_number (n : option Z) (d : Z) : Z :=
  match n with
  | Some 0 | None => d
  | Some v => v
  end.

(** [xs.length] *)
Definition length {A} (xs : list A) : Z := Z.of_nat (List.length xs).

End JS.

(** ** Paths and the file system *)

Definition path := list string.

Module Path.

(** [path.resolve(arg)] in working directory [cwd]: an argument that
    starts with a slash is absolute; empty and [.] segments are dropped
    and [..] goes up one level. *)
Fixpoint walk (acc : list string) (segs : list string) : list string :=
  match segs with
  | [] => acc
  | seg :: segs' =>
      if (seg =? "")%string || (seg =? ".")%string then walk acc segs'
      else if (seg =? "..")%string then walk (removelast acc) segs'
      else walk (acc ++ [seg]) segs'
  end.

Definition resolve (cwd : path) (arg : string) : path :=
  walk (if JS.startsWith arg "/" then [] else cwd) (JS.split "/"%char arg).

(** [path.relative(from, to)]: drop the common prefix, climb out of what
    is left of [from], go down what is left of [to]. *)
Fixpoint relative (from to : path) : path :=
  match from, to with
  | f :: from', t :: to' =>
      if (f =? t)%string then relative from' to'
      else repeat ".." (List.length from) ++ to
  | _, _ => repeat ".." (List.length from) ++ to
  end.

End Path.

(** A node of the file system. [File] stands for everything that a
    directory entry does not report as a directory (regular files, links,
    sockets) and that [fs.existsSync] finds. A directory holds its entries
    in the order [readdirSync] returns them, and [listable] tells whether
    [readdirSync] succeeds on it; [fs.existsSync] sees the entries either
    way. *)
Inductive node : Type :=
| File : node
| Dir (listable : bool) (entries : list (string * node)) : node.

Definition isDirectory (n : node) : bool :=
  match n with
  | Dir _ _ => true
  | File => false
  end.

Fixpoint find_entry (name : string) (es : list (string * node)) : option node :=
  match es with
  | [] => None
  | (nm, c) :: es' => if (nm =? name)%string then Some c else find_entry name es'
  end.

(** The node that path [p] names, starting from [n]. *)
Fixpoint lookup (n : node) (p : path) : option node :=
  match p with
  | [] => Some n
  | name :: p' =>
      match n with
      | Dir _ es =>
          match find_entry name es with
          | Some c => lookup c p'
          | None => None
          end
      | File => None
      end
  end.

(** [fs.existsSync] of the path [p] below [n]. *)
Definition existsSync (n : node) (p : path) : bool :=
  match lookup n p with
  | Some _ => true
  | None => false
  end.

(** [isGitRepo(dirPath)], on the node [dir] that [dirPath] names. *)
Definition isGitRepo (dir : node) : bool :=
  let gitDir := [".git"] in
  existsSync dir gitDir.

(** ** The tree walker *)

(** The test of the loop of [findGitRepos] that skips an entry by name. *)
Definition skipped (name : string) : bool :=
  JS.startsWith name "."
  || (name =? "node_modules")%string
  || (name =? "vendor")%string
  || (name =? "__pycache__")%string.

(** [findGitRepos(basePath, maxDepth, currentDepth)], on the node [n] that
    [basePath] names. [readdirSync] throws on what is not a directory and
    on a directory that cannot be listed; the [catch] then leaves [repos]
    empty. *)
Fixpoint findGitRepos (n : node) (basePath : path) (maxDepth currentDepth : Z)
  : list path :=
  if currentDepth >? maxDepth then []
  else
    match n with
    | File => []
    | Dir false _ => []
    | Dir true entries =>
        flat_map
          (fun entry =>
             let '(name, child) := entry in
             if negb (isDirectory child) then []
             else if skipped name then []
             else
               let fullPath := basePath ++ [name] in
               if isGitRepo child then [fullPath]
               else findGitRepos child fullPath maxDepth (currentDepth + 1))
          entries
    end.

(** ** The status collector *)

(** The four queries [getGitStatus] sends to git, each run by [execSync]
    in the repository's own directory. *)
Inductive command : Type :=
| git_status_porcelain
| git_branch_show_current
| git_rev_list_count
| git_stash_list.

(** What [execSync] did: it returned the command's output, or threw an
    error with this message. *)
Inductive exec_result : Type :=
| Returned (stdout : string)
| Thrown (message : string).

Definition execSync_t := command -> path -> exec_result.

(** The object [getGitStatus] returns: the full record, or the record of
    the [catch] branch, which has the two fields [error] and
    [hasChanges]. *)
Inductive StatusRecord : Type :=
| Status (branch : string)
         (staged modified untracked conflicts unpushed stashes : Z)
         (hasChanges : bool)
| StatusError (error : string) (hasChanges : bool).

Definition hasChanges (s : StatusRecord) : bool :=
  match s with
  | Status _ _ _ _ _ _ _ h => h
  | StatusError _ h => h
  end.

(** [line => line.trim()] as a filter: the lines that are not blank. *)
Definition nonblank (line : string) : bool := JS.truthy (JS.trim line).

(** [/^[MADRC]/.test(line)] *)
Definition test_staged (line : string) : bool :=
  match line with
  | String c _ =>
      match c with
      | "M"%char | "A"%char | "D"%char | "R"%char | "C"%char => true
      | _ => false
      end
  | EmptyString => false
  end.

(** [/^.[MD]/.test(line)] *)
Definition test_modified (line : string) : bool :=
  match line with
  | String c1 (String c2 _) =>
      negb (JS.is_line_terminator c1)
      && match c2 with
         | "M"%char | "D"%char => true
         | _ => false
         end
  | _ => false
  end.

Definition test_untracked (line : string) : bool :=
  JS.startsWith line "??".

Definition test_conflict (line : string) : bool :=
  JS.startsWith line "UU" || JS.startsWith line "AA" || JS.startsWith line "DD".

(** The lines of a command's output that are not blank. *)
Definition status_lines (out : string) : list string :=
  filter nonblank (JS.split "010"%char out).

(** [getGitStatus(repoPath)]: the outer [try] fails only on the first
    query; each of the other three has a [try] of its own. *)
Definition getGitStatus (execSync : execSync_t) (repoPath : path) : StatusRecord :=
  match execSync git_status_porcelain repoPath with
  | Thrown message => StatusError message false
  | Returned status =>
      let branch :=
        match execSync git_branch_show_current repoPath with
        | Returned out => JS.or_string (JS.trim out) "detached HEAD"
        | Thrown _ => "detached HEAD"
        end in
      let unpushed :=
        match execSync git_rev_list_count repoPath with
        | Returned out =>
            let ahead := JS.trim out in
            JS.or_number (JS.parseInt ahead) 0
        | Thrown _ => 0
        end in
      let stashes :=
        match execSync git_stash_list repoPath with
        | Returned stashList => JS.length (status_lines stashList)
        | Thrown _ => 0
        end in
      let lines := status_lines status in
      let staged := JS.length (filter test_staged lines) in
      let modified := JS.length (filter test_modified lines) in
      let untracked := JS.length (filter test_untracked lines) in
      let conflicts := JS.length (filter test_conflict lines) in
      Status branch staged modified untracked conflicts unpushed stashes
        ((JS.length lines >? 0) || (unpushed >? 0) || (stashes >? 0))
  end.

(** ** The report formatter *)

(** The fields of the full record, [None] where the object has no such
    field ([undefined]). *)
Definition branch_of (s : StatusRecord) : option string :=
  match s with Status b _ _ _ _ _ _ _ => Some b | StatusError _ _ => None end.
Definition staged_of (s : StatusRecord) : option Z :=
  match s with Status _ n _ _ _ _ _ _ => Some n | StatusError _ _ => None end.
Definition modified_of (s : StatusRecord) : option Z :=
  match s with Status _ _ n _ _ _ _ _ => Some n | StatusError _ _ => None end.
Definition untracked_of (s : StatusRecord) : option Z :=
  match s with Status _ _ _ n _ _ _ _ => Some n | StatusError _ _ => None end.
Definition conflicts_of (s : StatusRecord) : option Z :=
  match s with Status _ _ _ _ n _ _ _ => Some n | StatusError _ _ => None end.
Definition unpushed_of (s : StatusRecord) : option Z :=
  match s with Status _ _ _ _ _ n _ _ => Some n | StatusError _ _ => None end.
Definition stashes_of (s : StatusRecord) : option Z :=
  match s with Status _ _ _ _ _ _ n _ => Some n | StatusError _ _ => None end.
Definition error_of (s : StatusRecord) : option string :=
  match s with Status _ _ _ _ _ _ _ _ => None | StatusError e _ => Some e end.

(** One indicator of a pending entry, with the count it shows. *)
Inductive indicator : Type :=
| staged_files (n : Z)
| modified_files (n : Z)
| untracked_files (n : Z)
| conflict_files (n : Z)
| unpushed_commits (n : Z)
| stashed_changes (n : Z).

(** What an entry of the report says; the colours and symbols of the text
    are left out. *)
Inductive report_entry : Type :=
| entry_error (relativePath : path) (error : string)
| entry_pending (relativePath : path) (branch : string) (parts : list indicator)
| entry_clean (relativePath : path) (branch : string).

(** [if (x > 0) parts.push(mk x)], where an absent field compares false. *)
Definition push_if_positive (x : option Z) (mk : Z -> indicator)
  (parts : list indicator) : list indicator :=
  match x with
  | Some v => if v >? 0 then parts ++ [mk v] else parts
  | None => parts
  end.

(** A field inside a template string: an absent one prints [undefined]. *)
Definition show_branch (s : StatusRecord) : string :=
  match branch_of s with
  | Some b => b
  | None => "undefined"
  end.

(** [formatStatus]; [None] is the [null] it returns for a clean
    repository. *)
Definition formatStatus (repoPath : path) (status : StatusRecord) (basePath : path)
  : option report_entry :=
  let relativePath := Path.relative basePath repoPath in
  let parts := [] in
  if match error_of status with Some e => JS.truthy e | None => false end
  then Some (entry_error relativePath
               (match error_of status with Some e => e | None => "" end))
  else if negb (hasChanges status) then None
  else
    let parts := push_if_positive (staged_of status) staged_files parts in
    let parts := push_if_positive (modified_of status) modified_files parts in
    let parts := push_if_positive (untracked_of status) untracked_files parts in
    let parts := push_if_positive (conflicts_of status) conflict_files parts in
    let parts := push_if_positive (unpushed_of status) unpushed_commits parts in
    let parts := push_if_positive (stashes_of status) stashed_changes parts in
    Some (entry_pending relativePath (show_branch status) parts).

(** ** The command line and the summary *)

Record options : Type := mkOptions {
  searchPath : path;
  maxDepth : Z;
  showAll : bool;
  showHelp : bool
}.

(** The loop over the arguments; [-d] takes the next argument with it, and
    [parseInt] of a missing one is [NaN]. *)
Fixpoint parseArgs (cwd : path) (args : list string) (o : options) : options :=
  match args with
  | [] => o
  | arg :: rest =>
      if (arg =? "-h")%string || (arg =? "--help")%string then
        parseArgs cwd rest (mkOptions (searchPath o) (maxDepth o) (showAll o) true)
      else if (arg =? "-a")%string || (arg =? "--all")%string then
        parseArgs cwd rest (mkOptions (searchPath o) (maxDepth o) true (showHelp o))
      else if (arg =? "-d")%string || (arg =? "--depth")%string then
        match rest with
        | v :: rest' =>
            parseArgs cwd rest'
              (mkOptions (searchPath o) (JS.or_number (JS.parseInt v) 3)
                 (showAll o) (showHelp o))
        | [] =>
            mkOptions (searchPath o) (JS.or_number None 3) (showAll o) (showHelp o)
        end
      else if negb (JS.startsWith arg "-") then
        parseArgs cwd rest
          (mkOptions (Path.resolve cwd arg) (maxDepth o) (showAll o) (showHelp o))
      else parseArgs cwd rest o
  end.

(** What [main] writes, one constructor per [console.log] or
    [console.error] call, with the values the text shows. *)
Inductive output : Type :=
| help_text
| error_path_does_not_exist (searchPath : path)
| scanning_in (searchPath : path)
| no_repositories_found
| results_text (results : list report_entry)
| summary_header
| total_scanned (n : Z)
| with_changes (n : Z)
| clean_repositories (n : Z).

(** How the process ends: what it wrote and its exit status. *)
Record outcome : Type := mkOutcome {
  printed : list output;
  exitCode : Z
}.

(** The body of the loop of [main] over the repositories, on the pair of
    [reposWithChanges] and [results]. *)
Definition checkRepo (execSync : execSync_t) (searchPath : path) (showAll : bool)
  (acc : Z * list report_entry) (repoPath : path) : Z * list report_entry :=
  let '(reposWithChanges, results) := acc in
  let status := getGitStatus execSync repoPath in
  let formatted := formatStatus repoPath status searchPath in
  let reposWithChanges :=
    if hasChanges status then reposWithChanges + 1 else reposWithChanges in
  let results :=
    match formatted with
    | Some text => results ++ [text]
    | None =>
        if showAll then
          let relativePath := Path.relative searchPath repoPath in
          results ++ [entry_clean relativePath (show_branch status)]
        else results
    end in
  (reposWithChanges, results).

Definition checkRepos (execSync : execSync_t) (searchPath : path) (showAll : bool)
  (repos : list path) : Z * list report_entry :=
  fold_left (checkRepo execSync searchPath showAll) repos (0, []).

(** [findGitRepos(basePath, maxDepth)] as [main] calls it, with a path
    of the file system [root]; listing a path that names nothing throws,
    which [findGitRepos] catches. *)
Definition findGitReposIn (root : node) (basePath : path) (maxDepth : Z)
  : list path :=
  match lookup root basePath with
  | Some dir => findGitRepos dir basePath maxDepth 0
  | None => []
  end.

(** [main], run with arguments [argv] in working directory [cwd], on the
    file system whose root directory is [root]. *)
Definition main (argv : list string) (cwd : path) (root : node)
  (execSync : execSync_t) : outcome :=
  let args := skipn 2 argv in
  let o := parseArgs cwd args (mkOptions cwd 3 false false) in
  if showHelp o then mkOutcome [help_text] 0
  else if negb (existsSync root (searchPath o)) then
    mkOutcome [error_path_does_not_exist (searchPath o)] 1
  else
    let repos := findGitReposIn root (searchPath o) (maxDepth o) in
    if JS.length repos =? 0 then
      mkOutcome [scanning_in (searchPath o); no_repositories_found] 0
    else
      let '(reposWithChanges, results) :=
        checkRepos execSync (searchPath o) (showAll o) repos in
      mkOutcome
        ([scanning_in (searchPath o)]
         ++ (if JS.length results >? 0 then [results_text results] else [])
         ++ [summary_header;
             total_scanned (JS.length repos);
             with_changes reposWithChanges;
             clean_repositories (JS.length repos - reposWithChanges)])
        (if reposWithChanges >? 0 then 1 else 0).

(** ** Notions the statements use *)

(** [reaches n rel]: going down from directory [n] along [rel] passes only
    directories that can be listed, whose names are not skipped and that
    are no repository roots, and ends in a directory with a name that is
    not skipped and that is a repository root. *)
Fixpoint reaches (n : node) (rel : path) : bool :=
  match rel with
  | [] => false
  | name :: rel' =>
      match n with
      | Dir true es =>
          existsb
            (fun entry =>
               let '(nm, child) := entry in
               (nm =? name)%string && isDirectory child && negb (skipped nm)
               && (if isGitRepo child
                   then match rel' with [] => true | _ :: _ => false end
                   else reaches child rel'))
            es
      | _ => false
      end
  end.

(** Every directory of a tree names each of its entries once. *)
Fixpoint nodup_names (names : list string) : bool :=
  match names with
  | [] => true
  | name :: names' =>
      negb (existsb (String.eqb name) names') && nodup_names names'
  end.

Fixpoint well_formed (n : node) : bool :=
  match n with
  | File => true
  | Dir _ es =>
      nodup_names (map fst es)
      && forallb (fun entry => well_formed (snd entry)) es
  end.

(** [p] is a path-prefix of [q]: [q] is [p] or lies below it. *)
Definition path_prefix (p q : path) : Prop := exists r, q = p ++ r.

(** The tree with the contents of every directory of a skipped name
    emptied. *)
Fixpoint prune_skipped (n : node) : node :=
  match n with
  | File => File
  | Dir l es =>
      Dir l (map (fun entry =>
                    let '(name, child) := entry in
                    if skipped name then
                      (name, match child with Dir _ _ => Dir false [] | File => File end)
                    else (name, prune_skipped child))
               es)
  end.

(** [rel] names a repository root below [n]. *)
Definition is_repo_at (n : node) (rel : path) : bool :=
  match lookup n rel with
  | Some dir => isGitRepo dir
  | None => false
  end.

(** ** Sample inputs *)

(** A repository with an empty working tree. *)
Definition repo_dir : node := Dir true [(".git", Dir true [])].

(** [a] is a repository with a nested repository [a/b]; [c/d/e] is a
    repository three levels down. *)
Definition tree_deep : node :=
  Dir true
    [("a", Dir true [(".git", Dir true []); ("b", repo_dir)]);
     ("c", Dir true [("d", Dir true [("e", repo_dir)])])].

(** A scan root that is itself a repository, with node_modules, a hidden
    directory and a project below it. *)
Definition tree_mixed : node :=
  Dir true
    [(".git", Dir true []);
     ("node_modules", Dir true [("pkg", repo_dir)]);
     (".cache", repo_dir);
     ("notes.txt", File);
     ("proj", repo_dir)].

(** The output of a git command that prints these lines. *)
Definition newline : string := String "010"%char EmptyString.

Definition printed_lines (lines : list string) : string :=
  fold_right (fun line rest => (line ++ newline ++ rest)%string) EmptyString lines.

(** An [execSync] that answers the four queries the same way in every
    directory. *)
Definition exec_const (status branch ahead stash : exec_result) : execSync_t :=
  fun c _ =>
    match c with
    | git_status_porcelain => status
    | git_branch_show_current => branch
    | git_rev_list_count => ahead
    | git_stash_list => stash
    end.

(** A repository on branch main, with no upstream and no stash, whose one
    change is a path that is unmerged and added by the other side. *)
Definition exec_unmerged : execSync_t :=
  exec_const (Returned (printed_lines ["UA file"]))
    (Returned (printed_lines ["main"]))
    (Thrown "Command failed: git rev-list")
    (Returned EmptyString).

(** A directory where every query but the first one fails. *)
Definition exec_degraded : execSync_t :=
  exec_const (Returned EmptyString)
    (Thrown "Command failed: git branch --show-current")
    (Thrown "Command failed: git rev-list")
    (Thrown "Command failed: git stash list").

(** A directory where git cannot report the working tree. *)
Definition exec_broken : execSync_t :=
  exec_const (Thrown "Command failed: git status --porcelain")
    (Returned (printed_lines ["main"]))
    (Returned (printed_lines ["4"]))
    (Returned (printed_lines ["stash@{0}: WIP on main"])).

(** The four lines of the example of the specification. *)
Definition example_lines : list string :=
  ["M  file1.txt"; " M file2.txt"; "?? file3.txt"; "UU file4.txt"].

(** A status line whose first character is one of M, A, D, R, C and whose
    second character is M or D. *)
Definition double_coded (line : string) : bool :=
  match line with
  | String c1 (String c2 _) =>
      existsb (Ascii.eqb c1) ["M"; "A"; "D"; "R"; "C"]%char
      && existsb (Ascii.eqb c2) ["M"; "D"]%char
  | _ => false
  end.

(** A repository whose one change is a rename in the index with the new
    file deleted in the working tree. *)
Definition exec_renamed : execSync_t :=
  exec_const (Returned (printed_lines ["RD old -> new"]))
    (Returned (printed_lines ["main"]))
    (Returned (printed_lines ["0"]))
    (Returned EmptyString).

(** The repositories of [repos] that the loop of [main] counts in
    [reposWithChanges]. *)
Definition reposPending (execSync : execSync_t) (repos : list path) : list path :=
  filter (fun repoPath => hasChanges (getGitStatus execSync repoPath)) repos.

(** What one pass of the loop of [main] adds to [results]. *)
Definition entries_of (execSync : execSync_t) (searchPath : path) (showAll : bool)
  (repoPath : path) : list report_entry :=
  match formatStatus repoPath (getGitStatus execSync repoPath) searchPath with
  | Some text => [text]
  | None =>
      if showAll then
        [entry_clean (Path.relative searchPath repoPath)
           (show_branch (getGitStatus execSync repoPath))]
      else []
  end.

(** The options [main] starts from and ends with. *)
Definition options_of (argv : list string) (cwd : path) : options :=
  parseArgs cwd (skipn 2 argv) (mkOptions cwd 3 false false).

(** A directory [/work] with fifteen repositories. *)
Definition fifteen_names : list string :=
  ["r01"; "r02"; "r03"; "r04"; "r05"; "r06"; "r07"; "r08"; "r09"; "r10";
   "r11"; "r12"; "r13"; "r14"; "r15"].

Definition tree_fifteen : node :=
  Dir true [("work", Dir true (map (fun name => (name, repo_dir)) fifteen_names))].

(** git in [/work]: [r03] has a modified file, [r11] has a stash, the
    others are clean. *)
Definition exec_fifteen : execSync_t :=
  fun c repoPath =>
    match c with
    | git_status_porcelain =>
        if (last repoPath EmptyString =? "r03")%string
        then Returned (printed_lines [" M main.c"])
        else Returned EmptyString
    | git_branch_show_current => Returned (printed_lines ["main"])
    | git_rev_list_count => Returned (printed_lines ["0"])
    | git_stash_list =>
        if (last repoPath EmptyString =? "r11")%string
        then Returned (printed_lines ["stash@{0}: WIP on main"])
        else Returned EmptyString
    end.

(** A directory [/work] with a clean repository and one that git cannot
    read. *)
Definition tree_pair : node :=
  Dir true [("work", Dir true [("good", repo_dir); ("bad", repo_dir)])].

Definition exec_pair : execSync_t :=
  fun c repoPath =>
    if (last repoPath EmptyString =? "bad")%string
    then Thrown "Command failed: git status --porcelain"
    else match c with
         | git_branch_show_current => Returned (printed_lines ["main"])
         | git_rev_list_count => Returned (printed_lines ["0"])
         | _ => Returned EmptyString
         end.

(** ** Notions of the further properties *)

(** [s.includes(c)] for one character. *)
Fixpoint contains_char (c : ascii) (s : string) : bool :=
  match s with
  | EmptyString => false
  | String a r => Ascii.eqb a c || contains_char c r
  end.

(** The count an indicator of the report shows. *)
Definition indicator_count (i : indicator) : Z :=
  match i with
  | staged_files n | modified_files n | untracked_files n
  | conflict_files n | unpushed_commits n | stashed_changes n => n
  end.

(** The path an entry of the report starts with. *)
Definition entry_path (e : report_entry) : path :=
  match e with
  | entry_error p _ | entry_pending p _ _ | entry_clean p _ => p
  end.

Definition is_clean_entry (e : report_entry) : bool :=
  match e with
  | entry_clean _ _ => true
  | _ => false
  end.

(** The entries of the report among what [main] wrote. *)
Definition printed_results (outs : list output) : list report_entry :=
  flat_map (fun out => match out with results_text rs => rs | _ => [] end) outs.

(** What [main] wrote apart from the entries of the report. *)
Definition without_results (outs : list output) : list output :=
  filter (fun out => match out with results_text _ => false | _ => true end) outs.

(** The repositories [formatStatus] has a text for: those with an error
    and those with changes. *)
Definition reported (execSync : execSync_t) (repoPath : path) : bool :=
  let status := getGitStatus execSync repoPath in
  match error_of status with
  | Some e => JS.truthy e
  | None => false
  end
  || hasChanges status.

(** A repository four commits ahead of its upstream, with two stashes. *)
Definition exec_ahead : execSync_t :=
  exec_const (Returned EmptyString)
    (Returned (printed_lines ["  feature/x  "]))
    (Returned (printed_lines ["4"]))
    (Returned (printed_lines ["stash@{0}: WIP on main"; "stash@{1}: On main: spike"])).

(** The options with [showAll] set. *)
Definition with_showAll (o : options) : options :=
  mkOptions (searchPath o) (maxDepth o) true (showHelp o).

(** The tree with every directory that cannot be listed replaced by a
    directory that can, holding only the entries named [.git]. *)
Fixpoint forgive (n : node) : node :=
  match n with
  | File => File
  | Dir true es => Dir true (map (fun entry => (fst entry, forgive (snd entry))) es)
  | Dir false es =>
      Dir true (filter (fun entry => (fst entry =? ".git")%string) es)
  end.


(** A repository in the middle of a merge: one path deleted on both
    sides, one added on both sides, one changed on both sides, and an
    untracked file. *)
Definition exec_merging : execSync_t :=
  exec_const
    (Returned (printed_lines ["DD gone.txt"; "AA both.txt"; "UU clash.txt"; "?? new.txt"]))
    (Returned (printed_lines ["main"]))
    (Returned (printed_lines ["0"]))
    (Returned EmptyString).

(** Induction on a tree, with the property known of every entry of a
    directory. *)
Section NodeInduction.

Variable P : node -> Prop.
Hypothesis P_File : P File.
Hypothesis P_Dir :
  forall l es, Forall (fun entry => P (snd entry)) es -> P (Dir l es).

Fixpoint node_induction (n : node) : P n :=
  match n with
  | File => P_File
  | Dir l es =>
      P_Dir l es
        ((fix all (es : list (string * node)) : Forall (fun entry => P (snd entry)) es :=
            match es with
            | [] => Forall_nil _
            | e :: es' => Forall_cons e (node_induction (snd e)) (all es')
            end) es)
  end.

End NodeInduction.

(** * Properties *)

(** ** The definitions on small inputs *)

Example split_keeps_last_empty_line :
  JS.split "010"%char (printed_lines ["a"; "b"]) = ["a"; "b"; EmptyString]
  /\ status_lines (printed_lines ["a"; "  "; "b"]) = ["a"; "b"].
Proof. split; reflexivity. Qed.

Example parseInt_samples :
  JS.parseInt " 42abc" = Some 42 /\ JS.parseInt "abc" = None
  /\ JS.parseInt "-7" = Some (-7) /\ JS.parseInt EmptyString = None.
Proof. repeat split. Qed.

Example depth_option_samples :
  maxDepth (options_of ["node"; "git-pend"; "-d"; "5"] ["home"]) = 5
  /\ maxDepth (options_of ["node"; "git-pend"; "-d"; "deep"] ["home"]) = 3
  /\ maxDepth (options_of ["node"; "git-pend"; "--depth"; "0"] ["home"]) = 3
  /\ maxDepth (options_of ["node"; "git-pend"; "-d"] ["home"]) = 3.
Proof. repeat split. Qed.

Example resolve_samples :
  Path.resolve ["home"; "me"] "../you/./src/" = ["home"; "you"; "src"]
  /\ Path.resolve ["home"; "me"] "/work" = ["work"]
  /\ Path.relative ["work"] ["work"; "a"; "b"] = ["a"; "b"].
Proof. repeat split. Qed.

Example walker_samples :
  findGitRepos tree_deep [] 2 0 = [["a"]; ["c"; "d"; "e"]]
  /\ findGitRepos tree_deep [] 1 0 = [["a"]]
  /\ findGitRepos tree_deep [] (-1) 0 = []
  /\ findGitRepos tree_mixed ["home"] 3 0 = [["home"; "proj"]].
Proof. repeat split. Qed.

Example collector_samples :
  getGitStatus exec_unmerged ["repo"] = Status "main" 0 0 0 0 0 0 true
  /\ getGitStatus exec_degraded ["repo"] = Status "detached HEAD" 0 0 0 0 0 0 false
  /\ getGitStatus exec_fifteen ["work"; "r11"] = Status "main" 0 0 0 0 0 1 true.
Proof. repeat split. Qed.

(** ** The walker *)

Lemma findGitRepos_eq n basePath maxDepth currentDepth :
  findGitRepos n basePath maxDepth currentDepth =
  if currentDepth >? maxDepth then []
  else
    match n with
    | File => []
    | Dir false _ => []
    | Dir true entries =>
        flat_map
          (fun entry =>
             let '(name, child) := entry in
             if negb (isDirectory child) then []
             else if skipped name then []
             else
               if isGitRepo child then [basePath ++ [name]]
               else findGitRepos child (basePath ++ [name]) maxDepth (currentDepth + 1))
          entries
    end.
Proof. destruct n; reflexivity. Qed.

Lemma reaches_nil n : reaches n [] = false.
Proof. destruct n; reflexivity. Qed.

Lemma reaches_File rel : reaches File rel = false.
Proof. destruct rel; reflexivity. Qed.

Lemma reaches_unlistable es rel : reaches (Dir false es) rel = false.
Proof. destruct rel; reflexivity. Qed.

(** The walker returns exactly the paths that [reaches] accepts within
    the depth bound. *)
Lemma findGitRepos_spec n :
  forall base D d p,
    In p (findGitRepos n base D d) <->
    exists rel, p = base ++ rel /\ reaches n rel = true
                /\ d + JS.length rel <= D + 1.
Proof.
  induction n as [|l es IH] using node_induction; intros base D d p;
    rewrite findGitRepos_eq.
  - split.
    + destruct (d >? D); intros [].
    + intros (rel & _ & H & _). rewrite reaches_File in H. discriminate.
  - destruct (d >? D) eqn:Hd.
    + split; [intros []|]. intros (rel & _ & Hr & Hle).
      destruct rel as [|x rel]; [rewrite reaches_nil in Hr; discriminate|].
      unfold JS.length in Hle. cbn [List.length] in Hle. lia.
    + destruct l.
      2:{ split; [intros []|]. intros (rel & _ & Hr & _).
          rewrite reaches_unlistable in Hr. discriminate. }
      rewrite in_flat_map. rewrite Forall_forall in IH. split.
      * intros ([name child] & Hin & Hp).
        specialize (IH _ Hin). cbn [snd] in IH.
        destruct (isDirectory child) eqn:Hdir; cbn [negb] in Hp; [|destruct Hp].
        destruct (skipped name) eqn:Hsk; [destruct Hp|].
        destruct (isGitRepo child) eqn:Hrepo.
        -- destruct Hp as [<-|[]]. exists [name]. split; [reflexivity|]. split.
           ++ cbn [reaches]. apply existsb_exists. exists (name, child).
              split; [exact Hin|]. rewrite String.eqb_refl, Hdir, Hsk, Hrepo.
              reflexivity.
           ++ unfold JS.length. cbn [List.length]. lia.
        -- apply IH in Hp. destruct Hp as (rel & -> & Hr & Hle).
           exists (name :: rel). split; [rewrite <- app_assoc; reflexivity|].
           split.
           ++ cbn [reaches]. apply existsb_exists. exists (name, child).
              split; [exact Hin|]. rewrite String.eqb_refl, Hdir, Hsk, Hrepo.
              exact Hr.
           ++ unfold JS.length in *. cbn [List.length]. lia.
      * intros (rel & -> & Hr & Hle).
        destruct rel as [|name rel]; [discriminate|].
        cbn [reaches] in Hr. apply existsb_exists in Hr.
        destruct Hr as ([nm child] & Hin & Hc).
        apply andb_prop in Hc. destruct Hc as [Hc Hrest].
        apply andb_prop in Hc. destruct Hc as [Hc Hsk].
        apply andb_prop in Hc. destruct Hc as [Hnm Hdir].
        apply String.eqb_eq in Hnm. subst nm.
        apply negb_true_iff in Hsk.
        exists (name, child). split; [exact Hin|].
        rewrite Hdir, Hsk. cbn [negb].
        destruct (isGitRepo child) eqn:Hrepo.
        -- destruct rel; [|discriminate]. left. reflexivity.
        -- apply (IH _ Hin). exists rel. split; [rewrite <- app_assoc; reflexivity|].
           split; [exact Hrest|]. unfold JS.length in *. cbn [List.length] in Hle. lia.
Qed.

Lemma reaches_cons_inv l es name rel :
  reaches (Dir l es) (name :: rel) = true ->
  l = true /\
  exists child,
    In (name, child) es /\ isDirectory child = true /\ skipped name = false
    /\ (if isGitRepo child then rel = [] else reaches child rel = true).
Proof.
  destruct l; [|discriminate]. cbn [reaches]. intros H.
  apply existsb_exists in H. destruct H as ([nm child] & Hin & Hc).
  apply andb_prop in Hc. destruct Hc as [Hc Hrest].
  apply andb_prop in Hc. destruct Hc as [Hc Hsk].
  apply andb_prop in Hc. destruct Hc as [Hnm Hdir].
  apply String.eqb_eq in Hnm. subst nm. apply negb_true_iff in Hsk.
  split; [reflexivity|]. exists child. repeat split; try assumption.
  destruct (isGitRepo child); [|exact Hrest].
  destruct rel; [reflexivity|discriminate].
Qed.

Lemma reaches_not_skipped rel :
  forall n, reaches n rel = true -> Forall (fun c => skipped c = false) rel.
Proof.
  induction rel as [|name rel IH]; intros n H; [constructor|].
  destruct n as [|l es]; [discriminate|].
  apply reaches_cons_inv in H. destruct H as (_ & child & _ & _ & Hsk & Hrest).
  constructor; [exact Hsk|].
  destruct (isGitRepo child); [subst rel; constructor|].
  exact (IH _ Hrest).
Qed.

Lemma nodup_names_unique es :
  forall nm (c1 c2 : node),
    nodup_names (map fst es) = true ->
    In (nm, c1) es -> In (nm, c2) es -> c1 = c2.
Proof.
  induction es as [|[k c] es IH]; intros nm c1 c2 Hnd H1 H2; [destruct H1|].
  cbn in Hnd. apply andb_prop in Hnd. destruct Hnd as [Hk Hnd].
  apply negb_true_iff in Hk.
  assert (Hfresh : forall x, In (k, x) es -> False).
  { intros x Hx.
    assert (E : existsb (String.eqb k) (map fst es) = true).
    { apply existsb_exists. exists k. split; [|apply String.eqb_refl].
      change k with (fst (k, x)). apply in_map. exact Hx. }
    congruence. }
  destruct H1 as [H1|H1], H2 as [H2|H2].
  - congruence.
  - inversion H1; subst. destruct (Hfresh _ H2).
  - inversion H2; subst. destruct (Hfresh _ H1).
  - exact (IH _ _ _ Hnd H1 H2).
Qed.

Lemma well_formed_Dir l es :
  well_formed (Dir l es) = true ->
  nodup_names (map fst es) = true /\
  forall nm c, In (nm, c) es -> well_formed c = true.
Proof.
  cbn [well_formed]. intros H. apply andb_prop in H. destruct H as [Hn Hall].
  split; [exact Hn|]. intros nm c Hin.
  rewrite forallb_forall in Hall. exact (Hall _ Hin).
Qed.

(** A path the walker follows to a repository root is not continued. *)
Lemma reaches_prefix_end r1 :
  forall n r,
    well_formed n = true ->
    reaches n r1 = true -> reaches n (r1 ++ r) = true -> r = [].
Proof.
  induction r1 as [|name r1 IH]; intros n r Hwf H1 H2.
  - rewrite reaches_nil in H1. discriminate.
  - destruct n as [|l es]; [discriminate|].
    apply well_formed_Dir in Hwf. destruct Hwf as [Hnd Hch].
    apply reaches_cons_inv in H1. destruct H1 as (_ & c1 & Hin1 & _ & _ & Hr1).
    rewrite <- app_comm_cons in H2.
    apply reaches_cons_inv in H2. destruct H2 as (_ & c2 & Hin2 & _ & _ & Hr2).
    assert (c1 = c2) by exact (nodup_names_unique _ _ _ _ Hnd Hin1 Hin2).
    subst c2. destruct (isGitRepo c1).
    + subst r1. exact Hr2.
    + exact (IH _ _ (Hch _ _ Hin1) Hr1 Hr2).
Qed.

Lemma walker_entry_below base name child D d p :
  In p (if negb (isDirectory child) then []
        else if skipped name then []
        else if isGitRepo child then [base ++ [name]]
        else findGitRepos child (base ++ [name]) D d) ->
  exists r, p = base ++ name :: r.
Proof.
  destruct (isDirectory child); cbn [negb]; [|intros []].
  destruct (skipped name); [intros []|].
  destruct (isGitRepo child).
  - intros [<-|[]]. exists []. reflexivity.
  - intros H. apply findGitRepos_spec in H. destruct H as (rel & -> & _).
    exists rel. rewrite <- app_assoc. reflexivity.
Qed.

Lemma findGitRepos_NoDup n :
  forall base D d,
    well_formed n = true -> NoDup (findGitRepos n base D d).
Proof.
  induction n as [|l es IH] using node_induction; intros base D d Hwf;
    rewrite findGitRepos_eq.
  - destruct (d >? D); constructor.
  - destruct (d >? D); [constructor|]. destruct l; [|constructor].
    apply well_formed_Dir in Hwf. destruct Hwf as [Hnd Hch].
    induction es as [|[name child] es IHes]; [constructor|].
    cbn [flat_map]. cbn in Hnd. apply andb_prop in Hnd.
    destruct Hnd as [Hfresh Hnd]. apply negb_true_iff in Hfresh.
    inversion IH as [|? ? IHc IHrest]; subst.
    apply NoDup_app.
    + destruct (isDirectory child); cbn [negb]; [|constructor].
      destruct (skipped name); [constructor|].
      destruct (isGitRepo child).
      * constructor; [intros []|constructor].
      * apply IHc. apply (Hch name child). left. reflexivity.
    + apply IHes; [exact IHrest|exact Hnd|].
      intros nm c Hin. apply (Hch nm c). right. exact Hin.
    + intros p Hp Hq. apply walker_entry_below in Hp. destruct Hp as (r & ->).
      apply in_flat_map in Hq. destruct Hq as ([nm c] & Hin & Hq).
      apply walker_entry_below in Hq. destruct Hq as (r' & Hq).
      apply app_inv_head in Hq. inversion Hq; subst nm.
      assert (E : existsb (String.eqb name) (map fst es) = true).
      { apply existsb_exists. exists name. split; [|apply String.eqb_refl].
        change name with (fst (name, c)). apply in_map. exact Hin. }
      congruence.
Qed.

Lemma find_entry_In es :
  forall name (c : node),
    nodup_names (map fst es) = true -> In (name, c) es ->
    find_entry name es = Some c.
Proof.
  induction es as [|[k x] es IH]; intros name c Hnd Hin; [destruct Hin|].
  cbn [find_entry]. destruct (String.eqb_spec k name) as [->|Hne].
  - f_equal. apply (nodup_names_unique ((name, x) :: es) name); auto.
    left. reflexivity.
  - destruct Hin as [Hin|Hin]; [congruence|].
    cbn in Hnd. apply andb_prop in Hnd. apply IH; [apply Hnd|exact Hin].
Qed.

(** Along a path the walker follows, the last directory is a repository
    root and the ones before it are not. *)
Lemma reaches_lookup rel1 :
  forall n r2,
    well_formed n = true -> rel1 <> [] ->
    reaches n (rel1 ++ r2) = true ->
    is_repo_at n rel1 = match r2 with [] => true | _ :: _ => false end.
Proof.
  induction rel1 as [|name rel1 IH]; intros n r2 Hwf Hne H; [congruence|].
  destruct n as [|l es]; [discriminate|].
  apply well_formed_Dir in Hwf. destruct Hwf as [Hnd Hch].
  rewrite <- app_comm_cons in H. apply reaches_cons_inv in H.
  destruct H as (_ & c & Hin & _ & _ & Hrest).
  unfold is_repo_at. cbn [lookup]. rewrite (find_entry_In _ _ _ Hnd Hin).
  destruct rel1 as [|name' rel1].
  - cbn [lookup app] in *. destruct (isGitRepo c).
    + subst r2. reflexivity.
    + destruct r2; [rewrite reaches_nil in Hrest; discriminate|reflexivity].
  - destruct (isGitRepo c) eqn:Hrepo; [discriminate|].
    apply (IH c r2 (Hch _ _ Hin)); [discriminate|exact Hrest].
Qed.

Lemma isGitRepo_prune_skipped n : isGitRepo (prune_skipped n) = isGitRepo n.
Proof.
  destruct n as [|l es]; [reflexivity|].
  unfold isGitRepo, existsSync. cbn [prune_skipped lookup].
  induction es as [|[k c] es IH]; [reflexivity|].
  cbn [map find_entry].
  destruct (skipped k); cbn [find_entry]; destruct (k =? ".git")%string;
    try reflexivity; exact IH.
Qed.

Lemma isDirectory_prune_skipped n : isDirectory (prune_skipped n) = isDirectory n.
Proof. destruct n; reflexivity. Qed.

Lemma findGitRepos_prune_skipped n :
  forall base D d,
    findGitRepos (prune_skipped n) base D d = findGitRepos n base D d.
Proof.
  induction n as [|l es IH] using node_induction; intros base D d;
    [reflexivity|].
  rewrite (findGitRepos_eq (Dir l es)), findGitRepos_eq. cbn [prune_skipped].
  destruct (d >? D); [reflexivity|]. destruct l; [|reflexivity].
  induction es as [|[name child] es IHes]; [reflexivity|].
  inversion IH as [|? ? IHc IHrest]; subst. cbn [snd] in IHc.
  cbn [map flat_map]. rewrite (IHes IHrest). f_equal.
  destruct (skipped name) eqn:Hsk.
  - rewrite Hsk. destruct child; reflexivity.
  - rewrite Hsk, isDirectory_prune_skipped, isGitRepo_prune_skipped, IHc.
    reflexivity.
Qed.

Lemma skipped_spec name :
  skipped name = true <->
  JS.startsWith name "." = true \/ name = "node_modules"
  \/ name = "vendor" \/ name = "__pycache__".
Proof.
  unfold skipped. rewrite !orb_true_iff, !String.eqb_eq. tauto.
Qed.

(** C1, as the code has it. A call with [maxDepth = D] lists the
    directories of depth 0 to [D], so the repositories it returns lie
    between 1 and [D + 1] levels below the scan root; and it returns every
    directory within that range that is reached through listable
    directories that are neither skipped nor repository roots. *)
Theorem findGitRepos_depth (n : node) (base : path) (D : Z) :
  (forall p, In p (findGitRepos n base D 0) ->
     exists rel, p = base ++ rel /\ 1 <= JS.length rel <= D + 1
                 /\ reaches n rel = true)
  /\ (forall rel, reaches n rel = true -> JS.length rel <= D + 1 ->
        In (base ++ rel) (findGitRepos n base D 0)).
Proof.
  split.
  - intros p H. apply findGitRepos_spec in H.
    destruct H as (rel & -> & Hr & Hle). exists rel.
    split; [reflexivity|]. split; [|exact Hr].
    destruct rel; [rewrite reaches_nil in Hr; discriminate|].
    unfold JS.length in *. cbn [List.length] in *. lia.
  - intros rel Hr Hle. apply findGitRepos_spec. exists rel.
    split; [reflexivity|]. split; [exact Hr|lia].
Qed.

Lemma findGitRepos_depth_witness :
  In ["c"; "d"; "e"] (findGitRepos tree_deep [] 2 0).
Proof.
  apply (proj2 (findGitRepos_depth tree_deep [] 2) ["c"; "d"; "e"]).
  - reflexivity.
  - vm_compute. discriminate.
Defined.

(** C1 as stated fails: with [maxDepth = 2] the walker returns [c/d/e],
    three levels below the scan root; and [a/b] is a repository at depth
    exactly 2, yet nothing of depth 2 is returned. *)
Lemma findGitRepos_depth_counterexample :
  (In ["c"; "d"; "e"] (findGitRepos tree_deep [] 2 0)
   /\ ~ JS.length ["c"; "d"; "e"] <= 2)
  /\ (is_repo_at tree_deep ["a"; "b"] = true
      /\ JS.length ["a"; "b"] = 2
      /\ forall rel, In rel (findGitRepos tree_deep [] 2 0) ->
                     JS.length rel <> 2).
Proof.
  split; [split|split; [|split]].
  - vm_compute. right. left. reflexivity.
  - vm_compute. intros H. apply H. reflexivity.
  - reflexivity.
  - reflexivity.
  - intros rel H. vm_compute in H.
    destruct H as [<-|[<-|[]]]; vm_compute; discriminate.
Qed.

(** C4. In a directory tree (every directory names each entry once), no
    two entries of the result of [findGitRepos] are such that one is a
    path-prefix of the other; and no directory strictly between the scan
    root and a returned path is a repository root, since the walker adds a
    repository root and does not go into it. *)
Theorem findGitRepos_no_nesting (n : node) (base : path) (D d : Z) :
  well_formed n = true ->
  (forall i j p q,
     nth_error (findGitRepos n base D d) i = Some p ->
     nth_error (findGitRepos n base D d) j = Some q ->
     i <> j -> ~ path_prefix p q)
  /\ (forall rel r,
        In (base ++ rel ++ r) (findGitRepos n base D d) ->
        rel <> [] -> r <> [] -> is_repo_at n rel = false).
Proof.
  intros Hwf. split.
  - intros i j p q Hi Hj Hij [r Hq].
    pose proof (nth_error_In _ _ Hi) as Hp.
    pose proof (nth_error_In _ _ Hj) as Hq'.
    apply findGitRepos_spec in Hp. destruct Hp as (r1 & -> & Hr1 & _).
    apply findGitRepos_spec in Hq'. destruct Hq' as (r2 & -> & Hr2 & _).
    rewrite <- app_assoc in Hq. apply app_inv_head in Hq. subst r2.
    pose proof (reaches_prefix_end _ _ _ Hwf Hr1 Hr2). subst r.
    rewrite app_nil_r in Hj. apply Hij.
    pose proof (findGitRepos_NoDup n base D d Hwf) as Hnd.
    rewrite NoDup_nth_error in Hnd. apply Hnd; [|congruence].
    apply nth_error_Some. congruence.
  - intros rel r Hin Hrel Hr.
    apply findGitRepos_spec in Hin. destruct Hin as (rel' & Heq & Hreach & _).
    apply app_inv_head in Heq. subst rel'.
    rewrite (reaches_lookup rel n r Hwf Hrel Hreach).
    destruct r; [congruence|reflexivity].
Qed.

Lemma findGitRepos_no_nesting_witness :
  ~ path_prefix ["a"] ["c"; "d"; "e"] /\ is_repo_at tree_deep ["c"; "d"] = false.
Proof.
  pose proof (findGitRepos_no_nesting tree_deep [] 2 0 eq_refl) as [H1 H2].
  split.
  - apply (H1 0%nat 1%nat); [reflexivity|reflexivity|discriminate].
  - apply (H2 ["c"; "d"] ["e"]).
    + vm_compute. right. left. reflexivity.
    + discriminate.
    + discriminate.
Defined.

(** C5. A directory named node_modules, vendor or __pycache__, or whose
    name starts with a dot, is skipped: no component below the scan root
    of a returned path is such a name, and what such a directory holds
    does not change the result, so it is never gone into. *)
Theorem findGitRepos_skips (n : node) (base : path) (D d : Z) :
  (forall name,
     skipped name = true <->
     JS.startsWith name "." = true \/ name = "node_modules"
     \/ name = "vendor" \/ name = "__pycache__")
  /\ (forall p, In p (findGitRepos n base D d) ->
        exists rel, p = base ++ rel
                    /\ Forall (fun name => skipped name = false) rel)
  /\ findGitRepos (prune_skipped n) base D d = findGitRepos n base D d.
Proof.
  split; [exact skipped_spec|]. split.
  - intros p H. apply findGitRepos_spec in H.
    destruct H as (rel & -> & Hr & _). exists rel.
    split; [reflexivity|]. exact (reaches_not_skipped _ _ Hr).
  - apply findGitRepos_prune_skipped.
Qed.

Lemma findGitRepos_skips_witness :
  findGitRepos tree_mixed ["home"] 3 0 = [["home"; "proj"]]
  /\ exists rel, ["home"; "proj"] = ["home"] ++ rel
                 /\ Forall (fun name => skipped name = false) rel.
Proof.
  split; [reflexivity|].
  apply (proj1 (proj2 (findGitRepos_skips tree_mixed ["home"] 3 0))).
  left. reflexivity.
Defined.

(** C10. The scan root is not tested for the repository marker and is not
    returned: every returned path lies strictly below the scan root, also
    when the root holds the marker, and putting the marker into the root
    does not change the result. *)
Theorem findGitRepos_excludes_root (base : path) (D : Z) :
  (forall n p, In p (findGitRepos n base D 0) ->
     p <> base /\ exists name rel, p = base ++ name :: rel)
  /\ (forall l es1 es2 marker,
        isGitRepo (Dir l (es1 ++ (".git", marker) :: es2)) = true
        /\ findGitRepos (Dir l (es1 ++ (".git", marker) :: es2)) base D 0
           = findGitRepos (Dir l (es1 ++ es2)) base D 0).
Proof.
  split.
  - intros n p H. apply findGitRepos_spec in H.
    destruct H as (rel & -> & Hr & _).
    destruct rel as [|name rel]; [rewrite reaches_nil in Hr; discriminate|].
    split; [|exists name, rel; reflexivity].
    intros E. rewrite <- (app_nil_r base) in E at 2.
    apply app_inv_head in E. discriminate.
  - intros l es1 es2 marker. split.
    + unfold isGitRepo, existsSync. cbn [lookup].
      induction es1 as [|[k c] es1 IH]; [reflexivity|].
      cbn [app find_entry]. destruct (k =? ".git")%string; [reflexivity|exact IH].
    + rewrite !findGitRepos_eq. destruct (0 >? D); [reflexivity|].
      destruct l; [|reflexivity].
      rewrite !flat_map_app. f_equal. cbn [flat_map].
      destruct (isDirectory marker); reflexivity.
Qed.

Lemma findGitRepos_excludes_root_witness :
  isGitRepo tree_mixed = true /\ ["home"; "proj"] <> ["home"].
Proof.
  split; [reflexivity|].
  apply (proj1 (findGitRepos_excludes_root ["home"] 3) tree_mixed).
  left. reflexivity.
Defined.

(** ** The status collector and classifier *)

Lemma filter_length_bound {A} (f : A -> bool) (l : list A) :
  JS.length (filter f l) <= JS.length l.
Proof.
  unfold JS.length. pose proof (filter_length_le f l). lia.
Qed.

(** C2, as the code has it. [hasChanges] of a collected record is true
    exactly when the working-tree status has a line that is not blank, or
    the unpushed count or the stash count is positive; so it is true as
    soon as one of the six counts is positive. *)
Theorem hasChanges_spec (execSync : execSync_t) (repoPath : path)
  (b : string) (s m u c up st : Z) (h : bool) :
  getGitStatus execSync repoPath = Status b s m u c up st h ->
  exists status,
    execSync git_status_porcelain repoPath = Returned status
    /\ (h = true <-> JS.length (status_lines status) > 0 \/ up > 0 \/ st > 0)
    /\ (s > 0 \/ m > 0 \/ u > 0 \/ c > 0 \/ up > 0 \/ st > 0 -> h = true).
Proof.
  unfold getGitStatus. intros H.
  destruct (execSync git_status_porcelain repoPath) as [status|msg];
    [|discriminate].
  exists status. split; [reflexivity|].
  inversion H; subst; clear H.
  rewrite !orb_true_iff, !Z.gtb_lt. split; [lia|].
  pose proof (filter_length_bound test_staged (status_lines status)).
  pose proof (filter_length_bound test_modified (status_lines status)).
  pose proof (filter_length_bound test_untracked (status_lines status)).
  pose proof (filter_length_bound test_conflict (status_lines status)).
  lia.
Qed.

Lemma hasChanges_spec_witness :
  exists status,
    exec_unmerged git_status_porcelain ["repo"] = Returned status
    /\ (true = true <-> JS.length (status_lines status) > 0 \/ 0 > 0 \/ 0 > 0)
    /\ (0 > 0 \/ 0 > 0 \/ 0 > 0 \/ 0 > 0 \/ 0 > 0 \/ 0 > 0 -> true = true).
Proof.
  apply (hasChanges_spec exec_unmerged ["repo"] "main" 0 0 0 0 0 0 true).
  reflexivity.
Defined.

(** C2 as stated fails: the line [UA file] is in none of the four
    categories, so the record has [hasChanges] true and six counts of
    zero. *)
Lemma hasChanges_counterexample :
  ~ (forall execSync repoPath b s m u c up st h,
       getGitStatus execSync repoPath = Status b s m u c up st h ->
       (h = true <->
        s > 0 \/ m > 0 \/ u > 0 \/ c > 0 \/ up > 0 \/ st > 0)).
Proof.
  intros H.
  specialize (H exec_unmerged ["repo"] "main" 0 0 0 0 0 0 true eq_refl).
  destruct H as [H _]. specialize (H eq_refl). lia.
Qed.

(** C6. When the working-tree status query throws, the record is the
    error record. When it returns, the record is not an error record, and
    a branch query that throws gives the branch [detached HEAD], an
    ahead-count query that throws gives 0 unpushed, and a stash query that
    throws gives 0 stashes. *)
Theorem getGitStatus_failures (execSync : execSync_t) (repoPath : path) :
  (forall message,
     execSync git_status_porcelain repoPath = Thrown message ->
     getGitStatus execSync repoPath = StatusError message false)
  /\ (forall status,
        execSync git_status_porcelain repoPath = Returned status ->
        error_of (getGitStatus execSync repoPath) = None
        /\ (forall message,
              execSync git_branch_show_current repoPath = Thrown message ->
              branch_of (getGitStatus execSync repoPath) = Some "detached HEAD")
        /\ (forall message,
              execSync git_rev_list_count repoPath = Thrown message ->
              unpushed_of (getGitStatus execSync repoPath) = Some 0)
        /\ (forall message,
              execSync git_stash_list repoPath = Thrown message ->
              stashes_of (getGitStatus execSync repoPath) = Some 0)).
Proof.
  unfold getGitStatus. split.
  - intros message H. rewrite H. reflexivity.
  - intros status H. rewrite H. split; [reflexivity|].
    split; [|split]; intros message Hq; rewrite Hq; reflexivity.
Qed.

Lemma getGitStatus_failures_witness :
  getGitStatus exec_broken ["repo"]
  = StatusError "Command failed: git status --porcelain" false
  /\ (error_of (getGitStatus exec_degraded ["repo"]) = None
      /\ branch_of (getGitStatus exec_degraded ["repo"]) = Some "detached HEAD"
      /\ unpushed_of (getGitStatus exec_degraded ["repo"]) = Some 0
      /\ stashes_of (getGitStatus exec_degraded ["repo"]) = Some 0).
Proof.
  split.
  - apply (proj1 (getGitStatus_failures exec_broken ["repo"])). reflexivity.
  - destruct (proj2 (getGitStatus_failures exec_degraded ["repo"])
                EmptyString eq_refl) as (He & Hb & Hu & Hs).
    split; [exact He|]. split; [|split].
    + exact (Hb _ eq_refl).
    + exact (Hu _ eq_refl).
    + exact (Hs _ eq_refl).
Defined.

(** C7. The four lines [M  file1.txt], [ M file2.txt], [?? file3.txt] and
    [UU file4.txt] give one staged, one modified, one untracked and one
    conflict, on the lines themselves and in the record of a repository
    whose status output they are. *)
Theorem classifier_example (execSync : execSync_t) (repoPath : path) :
  (JS.length (filter test_staged example_lines) = 1
   /\ JS.length (filter test_modified example_lines) = 1
   /\ JS.length (filter test_untracked example_lines) = 1
   /\ JS.length (filter test_conflict example_lines) = 1)
  /\ status_lines (printed_lines example_lines) = example_lines
  /\ (execSync git_status_porcelain repoPath
        = Returned (printed_lines example_lines) ->
      staged_of (getGitStatus execSync repoPath) = Some 1
      /\ modified_of (getGitStatus execSync repoPath) = Some 1
      /\ untracked_of (getGitStatus execSync repoPath) = Some 1
      /\ conflicts_of (getGitStatus execSync repoPath) = Some 1).
Proof.
  split; [repeat split|split; [reflexivity|]].
  intros H. unfold getGitStatus. rewrite H. repeat split.
Qed.

Lemma classifier_example_witness :
  staged_of
    (getGitStatus
       (exec_const (Returned (printed_lines example_lines))
          (Returned "main") (Returned "0") (Returned EmptyString))
       ["repo"]) = Some 1.
Proof.
  apply (classifier_example
           (exec_const (Returned (printed_lines example_lines))
              (Returned "main") (Returned "0") (Returned EmptyString))
           ["repo"]).
  reflexivity.
Defined.

Lemma filter_length_impl {A} (f g : A -> bool) (l : list A) :
  (forall x, f x = true -> g x = true) ->
  JS.length (filter f l) <= JS.length (filter g l).
Proof.
  intros Hfg. unfold JS.length.
  induction l as [|x l IH]; [cbn; lia|].
  cbn [filter]. destruct (f x) eqn:F.
  - rewrite (Hfg x F). cbn [List.length]. lia.
  - destruct (g x); cbn [List.length]; lia.
Qed.

Lemma double_coded_shape c1 c2 rest :
  In c1 ["M"; "A"; "D"; "R"; "C"]%char -> In c2 ["M"; "D"]%char ->
  double_coded (String c1 (String c2 rest)) = true.
Proof.
  intros H1 H2. cbn [In] in H1, H2.
  destruct H1 as [<-|[<-|[<-|[<-|[<-|[]]]]]];
    destruct H2 as [<-|[<-|[]]]; reflexivity.
Qed.

Lemma double_coded_both line :
  double_coded line = true ->
  test_staged line = true /\ test_modified line = true.
Proof.
  destruct line as [|c1 [|c2 rest]]; try discriminate.
  unfold double_coded. intros H. apply andb_prop in H. destruct H as [H1 H2].
  apply existsb_exists in H1. destruct H1 as (x1 & Hin1 & E1).
  apply existsb_exists in H2. destruct H2 as (x2 & Hin2 & E2).
  apply Ascii.eqb_eq in E1, E2. subst x1 x2. cbn [In] in Hin1, Hin2.
  destruct Hin1 as [<-|[<-|[<-|[<-|[<-|[]]]]]];
    destruct Hin2 as [<-|[<-|[]]]; split; reflexivity.
Qed.

(** C8. Some status line counts as staged and as modified at once: a
    repository whose status output is the one line [MM file] gets a
    record with one staged and one modified. More generally every line
    whose first character is one of M, A, D, R, C and whose second
    character is M or D passes both tests, because they look at different
    positions, and the staged count and the modified count of a collected
    record each include all such lines of the status output. *)
Theorem classifier_double_count :
  (exists line,
     test_staged line = true /\ test_modified line = true
     /\ forall execSync repoPath,
          execSync git_status_porcelain repoPath = Returned (printed_lines [line]) ->
          JS.length (status_lines (printed_lines [line])) = 1
          /\ staged_of (getGitStatus execSync repoPath) = Some 1
          /\ modified_of (getGitStatus execSync repoPath) = Some 1)
  /\ (forall c1 c2 rest,
        In c1 ["M"; "A"; "D"; "R"; "C"]%char -> In c2 ["M"; "D"]%char ->
        double_coded (String c1 (String c2 rest)) = true
        /\ test_staged (String c1 (String c2 rest)) = true
        /\ test_modified (String c1 (String c2 rest)) = true)
  /\ (forall execSync repoPath status,
        execSync git_status_porcelain repoPath = Returned status ->
        exists s m,
          staged_of (getGitStatus execSync repoPath) = Some s
          /\ modified_of (getGitStatus execSync repoPath) = Some m
          /\ JS.length (filter double_coded (status_lines status)) <= s
          /\ JS.length (filter double_coded (status_lines status)) <= m).
Proof.
  split; [|split].
  - exists "MM file". split; [reflexivity|]. split; [reflexivity|].
    intros execSync repoPath H. unfold getGitStatus. rewrite H.
    repeat split.
  - intros c1 c2 rest H1 H2.
    pose proof (double_coded_shape c1 c2 rest H1 H2) as Hd.
    split; [exact Hd|]. exact (double_coded_both _ Hd).
  - intros execSync repoPath status H. unfold getGitStatus. rewrite H.
    cbn [staged_of modified_of]. eexists. eexists.
    split; [reflexivity|]. split; [reflexivity|].
    split; apply filter_length_impl; intros line Hl;
      apply double_coded_both in Hl; apply Hl.
Qed.

Lemma classifier_double_count_witness :
  (double_coded "RD old -> new" = true
   /\ test_staged "RD old -> new" = true
   /\ test_modified "RD old -> new" = true)
  /\ exists s m,
       staged_of (getGitStatus exec_renamed ["repo"]) = Some s
       /\ modified_of (getGitStatus exec_renamed ["repo"]) = Some m
       /\ JS.length (filter double_coded
                       (status_lines (printed_lines ["RD old -> new"]))) <= s
       /\ JS.length (filter double_coded
                       (status_lines (printed_lines ["RD old -> new"]))) <= m.
Proof.
  destruct classifier_double_count as (_ & Hshape & Hcount). split.
  - apply (Hshape "R"%char "D"%char " old -> new").
    + right. right. right. left. reflexivity.
    + right. left. reflexivity.
  - apply (Hcount exec_renamed ["repo"]). reflexivity.
Defined.

(** ** The summary and the exit status *)

Lemma checkRepos_fold execSync sp all repos :
  forall k rs,
    fold_left (checkRepo execSync sp all) repos (k, rs)
    = (k + JS.length (reposPending execSync repos),
       rs ++ flat_map (entries_of execSync sp all) repos).
Proof.
  induction repos as [|r repos IH]; intros k rs.
  - cbn. rewrite app_nil_r. f_equal. unfold JS.length. cbn. lia.
  - cbn [fold_left]. unfold checkRepo at 2. rewrite IH.
    cbn [reposPending filter flat_map]. fold (reposPending execSync repos).
    unfold entries_of at 2.
    destruct (hasChanges (getGitStatus execSync r));
      destruct (formatStatus r (getGitStatus execSync r) sp);
      try destruct all; rewrite <- ?app_assoc, ?app_nil_r; cbn [app];
      f_equal; unfold JS.length; cbn [List.length]; lia.
Qed.

(** [main] with its loop summed up. *)
Lemma main_eq argv cwd root execSync :
  main argv cwd root execSync =
  let o := options_of argv cwd in
  let repos := findGitReposIn root (searchPath o) (maxDepth o) in
  let pending := reposPending execSync repos in
  let results := flat_map (entries_of execSync (searchPath o) (showAll o)) repos in
  if showHelp o then mkOutcome [help_text] 0
  else if negb (existsSync root (searchPath o)) then
    mkOutcome [error_path_does_not_exist (searchPath o)] 1
  else if JS.length repos =? 0 then
    mkOutcome [scanning_in (searchPath o); no_repositories_found] 0
  else
    mkOutcome
      ([scanning_in (searchPath o)]
       ++ (if JS.length results >? 0 then [results_text results] else [])
       ++ [summary_header;
           total_scanned (JS.length repos);
           with_changes (JS.length pending);
           clean_repositories (JS.length repos - JS.length pending)])
      (if JS.length pending >? 0 then 1 else 0).
Proof.
  unfold main, options_of, checkRepos. cbv zeta.
  rewrite checkRepos_fold. cbn [app]. rewrite Z.add_0_l. reflexivity.
Qed.

Lemma length_zero_nil {A} (l : list A) : JS.length l = 0 <-> l = [].
Proof.
  unfold JS.length. destruct l; cbn [List.length]; split; intros H;
    try reflexivity; try discriminate; lia.
Qed.

Lemma length_positive {A} (l : list A) : (JS.length l >? 0) = true <-> l <> [].
Proof.
  rewrite Z.gtb_lt. unfold JS.length.
  destruct l; cbn [List.length]; split; intros H; try congruence; lia.
Qed.

Lemma reposPending_nil execSync repos :
  reposPending execSync repos = [] <->
  forall r, In r repos -> hasChanges (getGitStatus execSync r) = false.
Proof.
  unfold reposPending. split.
  - intros H r Hin.
    destruct (hasChanges (getGitStatus execSync r)) eqn:E; [|reflexivity].
    assert (Hr : In r (filter (fun p => hasChanges (getGitStatus execSync p)) repos))
      by (apply filter_In; split; assumption).
    rewrite H in Hr. destruct Hr.
  - intros H. induction repos as [|r repos IH]; [reflexivity|].
    cbn [filter]. rewrite (H r (or_introl eq_refl)).
    apply IH. intros r' Hr'. apply H. right. exact Hr'.
Qed.

Section Scan.

Variables (argv : list string) (cwd : path) (root : node)
          (execSync : execSync_t).

Let o := options_of argv cwd.
Let repos := findGitReposIn root (searchPath o) (maxDepth o).
Let pending := reposPending execSync repos.
Let results := flat_map (entries_of execSync (searchPath o) (showAll o)) repos.

Hypothesis no_help : showHelp o = false.
Hypothesis path_exists : existsSync root (searchPath o) = true.

(** A scan that finds nothing. *)
Lemma main_nothing_found :
  repos = [] ->
  main argv cwd root execSync
  = mkOutcome [scanning_in (searchPath o); no_repositories_found] 0.
Proof.
  intros E. rewrite main_eq. cbv zeta. fold o. rewrite no_help, path_exists.
  cbn [negb]. fold repos. rewrite E. reflexivity.
Qed.

(** A scan that finds repositories. *)
Lemma main_scanned :
  repos <> [] ->
  main argv cwd root execSync
  = mkOutcome
      ([scanning_in (searchPath o)]
       ++ (if JS.length results >? 0 then [results_text results] else [])
       ++ [summary_header;
           total_scanned (JS.length repos);
           with_changes (JS.length pending);
           clean_repositories (JS.length repos - JS.length pending)])
      (if JS.length pending >? 0 then 1 else 0).
Proof.
  intros Hne. rewrite main_eq. cbv zeta. fold o. rewrite no_help, path_exists.
  cbn [negb]. fold repos.
  destruct (Z.eqb_spec (JS.length repos) 0) as [E|_]; [|reflexivity].
  apply length_zero_nil in E. congruence.
Qed.

Lemma main_exit_clean :
  pending = [] -> exitCode (main argv cwd root execSync) = 0.
Proof.
  intros E.
  assert (Hcase : repos = [] \/ repos <> []).
  { generalize repos. intros [|r rs]; [left; reflexivity|right; discriminate]. }
  destruct Hcase as [Hr|Hr].
  - rewrite (main_nothing_found Hr). reflexivity.
  - rewrite (main_scanned Hr). cbn [exitCode]. rewrite E. reflexivity.
Qed.

Lemma main_exit_pending :
  pending <> [] -> exitCode (main argv cwd root execSync) = 1.
Proof.
  intros Hne. rewrite main_scanned.
  - cbn [exitCode]. apply length_positive in Hne. rewrite Hne. reflexivity.
  - intros E. apply Hne. unfold pending. rewrite E. reflexivity.
Qed.

Lemma main_summary :
  repos <> [] ->
  In (total_scanned (JS.length repos)) (printed (main argv cwd root execSync))
  /\ In (with_changes (JS.length pending)) (printed (main argv cwd root execSync))
  /\ In (clean_repositories (JS.length repos - JS.length pending))
       (printed (main argv cwd root execSync)).
Proof.
  intros Hne. rewrite (main_scanned Hne). cbn [printed].
  rewrite !in_app_iff. cbn [In]. auto 10.
Qed.

Lemma main_results :
  forall entry, In entry results ->
    In (results_text results) (printed (main argv cwd root execSync)).
Proof.
  intros entry Hin.
  assert (Hne : repos <> []).
  { intros E. unfold results in Hin. rewrite E in Hin. destruct Hin. }
  rewrite (main_scanned Hne). cbn [printed].
  assert (Hpos : (JS.length results >? 0) = true).
  { apply length_positive. intros E. rewrite E in Hin. destruct Hin. }
  rewrite Hpos. right. left. reflexivity.
Qed.

End Scan.

(** C3. When help is asked for, [main] prints the help text and exits
    with 0. Otherwise it exits with 1 when the scan path does not exist;
    and when it exists, with 0 when no repository is found or none has
    [hasChanges], and with 1 when some repository has [hasChanges]. The
    summary gives the number of repositories, of those with changes and
    the difference of the two; fifteen repositories of which two have
    changes give 15, 2 and 13, and exit status 1. *)
Theorem main_exit_status (argv : list string) (cwd : path) (root : node)
  (execSync : execSync_t) :
  let o := options_of argv cwd in
  let repos := findGitReposIn root (searchPath o) (maxDepth o) in
  let pending := reposPending execSync repos in
  let out := main argv cwd root execSync in
  (showHelp o = true -> printed out = [help_text] /\ exitCode out = 0)
  /\ (showHelp o = false -> existsSync root (searchPath o) = false ->
      exitCode out = 1)
  /\ (showHelp o = false -> existsSync root (searchPath o) = true ->
      (repos = [] -> exitCode out = 0)
      /\ ((forall r, In r repos -> hasChanges (getGitStatus execSync r) = false) ->
          exitCode out = 0)
      /\ ((exists r, In r repos /\ hasChanges (getGitStatus execSync r) = true) ->
          exitCode out = 1)
      /\ (repos <> [] ->
          In (total_scanned (JS.length repos)) (printed out)
          /\ In (with_changes (JS.length pending)) (printed out)
          /\ In (clean_repositories (JS.length repos - JS.length pending))
               (printed out))
      /\ (JS.length repos = 15 -> JS.length pending = 2 ->
          In (total_scanned 15) (printed out)
          /\ In (with_changes 2) (printed out)
          /\ In (clean_repositories 13) (printed out)
          /\ exitCode out = 1)).
Proof.
  intros o repos pending out. split; [|split].
  - intros Hh. subst out. rewrite main_eq. cbv zeta. fold o. rewrite Hh.
    split; reflexivity.
  - intros Hh He. subst out. rewrite main_eq. cbv zeta. fold o.
    rewrite Hh, He. reflexivity.
  - intros Hh He. split; [|split; [|split; [|split]]].
    + intros E. apply (main_exit_clean argv cwd root execSync Hh He).
      fold o. fold repos. rewrite E. reflexivity.
    + intros Hall. apply (main_exit_clean argv cwd root execSync Hh He).
      apply reposPending_nil. exact Hall.
    + intros (r & Hin & Hr). apply (main_exit_pending argv cwd root execSync Hh He).
      intros E. apply reposPending_nil with (r := r) in E; [|exact Hin].
      rewrite E in Hr. discriminate.
    + intros Hne. exact (main_summary argv cwd root execSync Hh He Hne).
    + intros H15 H2.
      assert (Hne : repos <> []).
      { intros E. rewrite E in H15. discriminate. }
      destruct (main_summary argv cwd root execSync Hh He Hne) as (Ht & Hw & Hc).
      fold o in Ht, Hw, Hc. fold repos in Ht, Hw, Hc. fold pending in Hw, Hc.
      rewrite H15 in Ht, Hc. rewrite H2 in Hw, Hc.
      repeat split; try assumption.
      apply (main_exit_pending argv cwd root execSync Hh He).
      fold o. fold repos. fold pending. intros E. rewrite E in H2. discriminate.
Qed.

Lemma main_exit_status_witness :
  (exitCode (main ["node"; "git-pend"; "--help"; "/nowhere"] ["home"]
               tree_fifteen exec_fifteen) = 0
   /\ exitCode (main ["node"; "git-pend"; "/nowhere"] ["home"]
                  tree_fifteen exec_fifteen) = 1)
  /\ In (total_scanned 15)
        (printed (main ["node"; "git-pend"; "/work"] ["home"] tree_fifteen exec_fifteen))
  /\ In (with_changes 2)
        (printed (main ["node"; "git-pend"; "/work"] ["home"] tree_fifteen exec_fifteen))
  /\ In (clean_repositories 13)
        (printed (main ["node"; "git-pend"; "/work"] ["home"] tree_fifteen exec_fifteen))
  /\ exitCode (main ["node"; "git-pend"; "/work"] ["home"] tree_fifteen exec_fifteen) = 1.
Proof.
  split; [split|].
  - pose proof (main_exit_status ["node"; "git-pend"; "--help"; "/nowhere"]
                  ["home"] tree_fifteen exec_fifteen) as H.
    cbv zeta in H. destruct H as (H & _ & _). apply H. reflexivity.
  - pose proof (main_exit_status ["node"; "git-pend"; "/nowhere"]
                  ["home"] tree_fifteen exec_fifteen) as H.
    cbv zeta in H. destruct H as (_ & H & _). apply H; reflexivity.
  - pose proof (main_exit_status ["node"; "git-pend"; "/work"]
                  ["home"] tree_fifteen exec_fifteen) as H.
    cbv zeta in H. destruct H as (_ & _ & H).
    destruct (H eq_refl eq_refl) as (_ & _ & _ & _ & H15).
    apply H15; reflexivity.
Defined.

Lemma getGitStatus_thrown execSync repoPath message :
  execSync git_status_porcelain repoPath = Thrown message ->
  getGitStatus execSync repoPath = StatusError message false.
Proof. unfold getGitStatus. intros ->. reflexivity. Qed.

(** C9. A repository whose working-tree status query throws gets a record
    with [hasChanges] false. It is not among the repositories counted as
    having changes, so the summary counts it as clean, and it does not
    make the exit status 1: when no repository whose query returned has
    changes, the exit status is 0. Its error entry is in the report
    whatever the display mode (the message of a thrown error is not
    empty). *)
Theorem error_record_is_clean (argv : list string) (cwd : path) (root : node)
  (execSync : execSync_t) (repoPath : path) (message : string) :
  let o := options_of argv cwd in
  let repos := findGitReposIn root (searchPath o) (maxDepth o) in
  let pending := reposPending execSync repos in
  let out := main argv cwd root execSync in
  showHelp o = false ->
  existsSync root (searchPath o) = true ->
  In repoPath repos ->
  execSync git_status_porcelain repoPath = Thrown message ->
  hasChanges (getGitStatus execSync repoPath) = false
  /\ ~ In repoPath pending
  /\ In (with_changes (JS.length pending)) (printed out)
  /\ In (clean_repositories (JS.length repos - JS.length pending)) (printed out)
  /\ (message <> EmptyString ->
      exists results,
        In (results_text results) (printed out)
        /\ In (entry_error (Path.relative (searchPath o) repoPath) message) results)
  /\ ((forall r status,
         In r repos -> execSync git_status_porcelain r = Returned status ->
         hasChanges (getGitStatus execSync r) = false) ->
      exitCode out = 0).
Proof.
  intros o repos pending out Hh He Hin Hthrown.
  pose proof (getGitStatus_thrown _ _ _ Hthrown) as Hrec.
  assert (Hne : repos <> []) by (intros E; rewrite E in Hin; destruct Hin).
  destruct (main_summary argv cwd root execSync Hh He Hne) as (_ & Hw & Hc).
  split; [rewrite Hrec; reflexivity|].
  split.
  { unfold pending, reposPending. rewrite filter_In, Hrec. cbn [hasChanges].
    intros [_ H]. discriminate. }
  split; [exact Hw|]. split; [exact Hc|]. split.
  - intros Hmsg.
    exists (flat_map (entries_of execSync (searchPath o) (showAll o)) repos).
    assert (Hentry :
      In (entry_error (Path.relative (searchPath o) repoPath) message)
         (flat_map (entries_of execSync (searchPath o) (showAll o)) repos)).
    { apply in_flat_map. exists repoPath. split; [exact Hin|].
      unfold entries_of, formatStatus. rewrite Hrec. cbn [error_of].
      destruct message; [congruence|]. left. reflexivity. }
    split; [|exact Hentry].
    exact (main_results argv cwd root execSync Hh He _ Hentry).
  - intros Hall. apply (main_exit_clean argv cwd root execSync Hh He).
    apply reposPending_nil. intros r Hr.
    destruct (execSync git_status_porcelain r) as [status|msg] eqn:E.
    + exact (Hall r status Hr E).
    + rewrite (getGitStatus_thrown _ _ _ E). reflexivity.
Qed.

Lemma error_record_is_clean_witness :
  hasChanges (getGitStatus exec_pair ["work"; "bad"]) = false
  /\ In (clean_repositories 2)
        (printed (main ["node"; "git-pend"; "/work"] ["home"] tree_pair exec_pair))
  /\ (exists results,
        In (results_text results)
           (printed (main ["node"; "git-pend"; "/work"] ["home"] tree_pair exec_pair))
        /\ In (entry_error ["bad"] "Command failed: git status --porcelain") results)
  /\ exitCode (main ["node"; "git-pend"; "/work"] ["home"] tree_pair exec_pair) = 0.
Proof.
  pose proof (error_record_is_clean ["node"; "git-pend"; "/work"] ["home"]
                tree_pair exec_pair ["work"; "bad"]
                "Command failed: git status --porcelain") as H.
  cbv zeta in H.
  destruct H as (H1 & _ & _ & H4 & H5 & H6).
  - reflexivity.
  - reflexivity.
  - right. left. reflexivity.
  - reflexivity.
  - split; [exact H1|]. split; [exact H4|]. split.
    + apply H5. discriminate.
    + apply H6. intros r status Hr Hs.
      destruct Hr as [<-|[<-|[]]]; [reflexivity|discriminate Hs].
Defined.

(** * Further properties *)

(** ** Strings the collector reads *)

Lemma trimStart_length s :
  (String.length (JS.trimStart s) <= String.length s)%nat.
Proof.
  induction s as [|c r IH]; [apply le_n|].
  cbn [JS.trimStart]. destruct (JS.is_ws c); cbn [String.length]; lia.
Qed.

Lemma trimStart_idem s : JS.trimStart (JS.trimStart s) = JS.trimStart s.
Proof.
  induction s as [|c r IH]; [reflexivity|].
  cbn [JS.trimStart]. destruct (JS.is_ws c) eqn:E; [exact IH|].
  cbn [JS.trimStart]. rewrite E. reflexivity.
Qed.

Lemma trimStart_trimEnd t :
  JS.trimStart t = t -> JS.trimStart (JS.trimEnd t) = JS.trimEnd t.
Proof.
  destruct t as [|c r]; [reflexivity|].
  cbn [JS.trimStart]. destruct (JS.is_ws c) eqn:E.
  - intros H. pose proof (trimStart_length r) as L. rewrite H in L.
    cbn [String.length] in L. lia.
  - intros _. cbn [JS.trimEnd].
    destruct (JS.trimEnd r); rewrite ?E; cbn [JS.trimStart]; rewrite E;
      reflexivity.
Qed.

Lemma trimEnd_idem s : JS.trimEnd (JS.trimEnd s) = JS.trimEnd s.
Proof.
  induction s as [|c r IH]; [reflexivity|].
  cbn [JS.trimEnd]. destruct (JS.trimEnd r) as [|c' r'] eqn:E.
  - destruct (JS.is_ws c) eqn:W; [reflexivity|].
    cbn [JS.trimEnd]. rewrite W. reflexivity.
  - change (JS.trimEnd (String c (String c' r')))
      with (match JS.trimEnd (String c' r') with
            | EmptyString =>
                if JS.is_ws c then EmptyString else String c EmptyString
            | r0 => String c r0
            end).
    rewrite IH. reflexivity.
Qed.

Lemma trim_idem s : JS.trim (JS.trim s) = JS.trim s.
Proof.
  unfold JS.trim.
  rewrite (trimStart_trimEnd (JS.trimStart s) (trimStart_idem s)).
  apply trimEnd_idem.
Qed.

Lemma trimStart_trim s : JS.trimStart (JS.trim s) = JS.trim s.
Proof. unfold JS.trim. apply trimStart_trimEnd, trimStart_idem. Qed.

(** X1. The branch of a collected record is never empty and carries no
    white space around it: it is the trimmed output of the branch query
    when that is not empty, and [detached HEAD] when it is empty or the
    query threw. *)
Theorem getGitStatus_branch_trimmed (execSync : execSync_t) (repoPath : path)
  (b : string) :
  branch_of (getGitStatus execSync repoPath) = Some b ->
  b <> EmptyString /\ JS.trim b = b
  /\ (forall out,
        execSync git_branch_show_current repoPath = Returned out ->
        (JS.trim out <> EmptyString -> b = JS.trim out)
        /\ (JS.trim out = EmptyString -> b = "detached HEAD"))
  /\ (forall message,
        execSync git_branch_show_current repoPath = Thrown message ->
        b = "detached HEAD").
Proof.
  unfold getGitStatus.
  destruct (execSync git_status_porcelain repoPath); [|discriminate].
  cbn [branch_of]. intros H. injection H as <-.
  destruct (execSync git_branch_show_current repoPath) as [out|msg].
  - unfold JS.or_string. destruct (JS.truthy (JS.trim out)) eqn:T.
    + split; [intros E; rewrite E in T; discriminate|].
      split; [apply trim_idem|]. split; [|discriminate].
      intros out' H. injection H as <-. split; [reflexivity|].
      intros E. rewrite E in T. discriminate.
    + split; [discriminate|]. split; [reflexivity|]. split; [|discriminate].
      intros out' H. injection H as <-. split; [|reflexivity].
      intros Hne. destruct (JS.trim out); [congruence|discriminate].
  - split; [discriminate|]. split; [reflexivity|]. split; [discriminate|].
    reflexivity.
Qed.

Lemma getGitStatus_branch_trimmed_witness :
  (branch_of (getGitStatus exec_ahead ["repo"]) = Some "feature/x"
   /\ "feature/x" <> EmptyString /\ JS.trim "feature/x" = "feature/x"
   /\ "feature/x" = JS.trim (printed_lines ["  feature/x  "]))
  /\ (branch_of (getGitStatus exec_degraded ["repo"]) = Some "detached HEAD"
      /\ "detached HEAD" = "detached HEAD").
Proof.
  split.
  - split; [reflexivity|].
    destruct (getGitStatus_branch_trimmed exec_ahead ["repo"] "feature/x" eq_refl)
      as (H1 & H2 & H3 & _).
    split; [exact H1|]. split; [exact H2|].
    apply (H3 (printed_lines ["  feature/x  "]) eq_refl). discriminate.
  - split; [reflexivity|].
    destruct (getGitStatus_branch_trimmed exec_degraded ["repo"] "detached HEAD"
                eq_refl) as (_ & _ & _ & H4).
    exact (H4 _ eq_refl).
Defined.

Lemma digit_range c d : JS.digit c = Some d -> 0 <= d <= 9.
Proof.
  unfold JS.digit.
  destruct ((48 <=? Z.of_nat (nat_of_ascii c)) && (Z.of_nat (nat_of_ascii c) <=? 57))
    eqn:E; [|discriminate].
  intros H. injection H as <-. apply andb_prop in E. lia.
Qed.

Lemma digits_nonneg s :
  forall acc v,
    match acc with Some a => 0 <= a | None => True end ->
    JS.digits acc s = Some v -> 0 <= v.
Proof.
  induction s as [|c r IH]; intros acc v Hacc H; cbn [JS.digits] in H.
  - subst acc. exact Hacc.
  - destruct (JS.digit c) as [d|] eqn:D.
    + apply digit_range in D. refine (IH _ _ _ H). cbv beta iota.
      destruct acc; lia.
    + subst acc. exact Hacc.
Qed.

Lemma parseInt_nonneg s v :
  (forall r, JS.trimStart s <> String "-"%char r) ->
  JS.parseInt s = Some v -> 0 <= v.
Proof.
  unfold JS.parseInt. intros Hminus H.
  destruct (JS.trimStart s) as [|c r] eqn:E; [discriminate|].
  assert (Hd : JS.digits None (String c r) = Some v \/ JS.digits None r = Some v).
  { destruct (Ascii.eqb_spec c "-"%char) as [->|Hc];
      [destruct (Hminus r eq_refl)|].
    destruct (Ascii.eqb_spec c "+"%char) as [->|Hp]; [right; exact H|].
    left. destruct c as [[] [] [] [] [] [] [] []]; try exact H; congruence. }
  destruct Hd as [Hd|Hd]; exact (digits_nonneg _ None v I Hd).
Qed.

(** X2. The unpushed count of a collected record is 0 when the
    ahead-count query threw or its trimmed output is not a number, and
    the number the output starts with otherwise; it is negative only when
    the output starts, after white space, with a minus sign. *)
Theorem getGitStatus_unpushed_nonneg (execSync : execSync_t) (repoPath : path)
  (up : Z) :
  unpushed_of (getGitStatus execSync repoPath) = Some up ->
  (forall message,
     execSync git_rev_list_count repoPath = Thrown message -> up = 0)
  /\ (forall out,
        execSync git_rev_list_count repoPath = Returned out ->
        (JS.parseInt (JS.trim out) = None -> up = 0)
        /\ (forall v, JS.parseInt (JS.trim out) = Some v -> up = v)
        /\ ((forall r, JS.trim out <> String "-"%char r) -> 0 <= up)).
Proof.
  unfold getGitStatus.
  destruct (execSync git_status_porcelain repoPath); [|discriminate].
  cbn [unpushed_of]. intros H. injection H as <-.
  destruct (execSync git_rev_list_count repoPath) as [out|msg].
  - split; [discriminate|]. intros out' H. injection H as <-.
    destruct (JS.parseInt (JS.trim out)) as [v|] eqn:P.
    + split; [discriminate|]. split.
      * intros v' H. injection H as <-. destruct v; reflexivity.
      * intros Hminus.
        assert (0 <= v).
        { apply (parseInt_nonneg (JS.trim out)); [|exact P].
          intros r. rewrite trimStart_trim. apply Hminus. }
        unfold JS.or_number. destruct v; lia.
    + split; [reflexivity|]. split; [discriminate|]. intros _. cbn. lia.
  - split; [reflexivity|]. discriminate.
Qed.

Lemma getGitStatus_unpushed_nonneg_witness :
  (unpushed_of (getGitStatus exec_ahead ["repo"]) = Some 4 /\ 4 = 4 /\ 0 <= 4)
  /\ (unpushed_of (getGitStatus exec_unmerged ["repo"]) = Some 0 /\ 0 = 0).
Proof.
  split.
  - split; [reflexivity|].
    destruct (getGitStatus_unpushed_nonneg exec_ahead ["repo"] 4 eq_refl)
      as (_ & H).
    destruct (H (printed_lines ["4"]) eq_refl) as (_ & Hv & Hpos).
    split; [exact (Hv 4 eq_refl)|]. apply Hpos. discriminate.
  - split; [reflexivity|].
    destruct (getGitStatus_unpushed_nonneg exec_unmerged ["repo"] 0 eq_refl)
      as (H & _).
    exact (H _ eq_refl).
Defined.

Lemma split_line line rest :
  contains_char "010"%char line = false ->
  JS.split "010"%char (line ++ newline ++ rest)%string
  = line :: JS.split "010"%char rest.
Proof.
  induction line as [|c r IH]; intros H; [reflexivity|].
  cbn [contains_char] in H. apply orb_false_iff in H. destruct H as [Hc Hr].
  cbn [String.append JS.split]. rewrite Hc, (IH Hr). reflexivity.
Qed.

Lemma split_printed_lines lines :
  Forall (fun line => contains_char "010"%char line = false) lines ->
  JS.split "010"%char (printed_lines lines) = lines ++ [EmptyString].
Proof.
  induction 1 as [|line lines Hl _ IH]; [reflexivity|].
  cbn [printed_lines fold_right]. fold (printed_lines lines).
  rewrite (split_line _ _ Hl), IH. reflexivity.
Qed.

Lemma filter_all {A} (f : A -> bool) (l : list A) :
  Forall (fun x => f x = true) l -> filter f l = l.
Proof.
  induction 1 as [|x l Hx _ IH]; [reflexivity|].
  cbn [filter]. rewrite Hx, IH. reflexivity.
Qed.

(** X3. The collector reads back the lines git printed: when no line is
    blank, splitting the output at line feeds and dropping blank lines
    gives the lines themselves, so the stash count is the number of
    stashes listed. *)
Theorem status_lines_printed (lines : list string) :
  Forall (fun line => nonblank line = true
                      /\ contains_char "010"%char line = false) lines ->
  status_lines (printed_lines lines) = lines
  /\ forall execSync repoPath status,
       execSync git_status_porcelain repoPath = Returned status ->
       execSync git_stash_list repoPath = Returned (printed_lines lines) ->
       stashes_of (getGitStatus execSync repoPath) = Some (JS.length lines).
Proof.
  intros H.
  assert (E : status_lines (printed_lines lines) = lines).
  { unfold status_lines. rewrite split_printed_lines.
    - rewrite filter_app. cbn [filter]. change (nonblank EmptyString) with false.
      rewrite app_nil_r. apply filter_all.
      eapply Forall_impl; [|exact H]. intros line [Hn _]. exact Hn.
    - eapply Forall_impl; [|exact H]. intros line [_ Hc]. exact Hc. }
  split; [exact E|].
  intros execSync repoPath status Hs Hst. unfold getGitStatus.
  rewrite Hs, Hst. cbn [stashes_of]. rewrite E. reflexivity.
Qed.

Lemma status_lines_printed_witness :
  status_lines (printed_lines ["stash@{0}: WIP on main"; "stash@{1}: On main: spike"])
  = ["stash@{0}: WIP on main"; "stash@{1}: On main: spike"]
  /\ stashes_of (getGitStatus exec_ahead ["repo"]) = Some 2.
Proof.
  assert (H : Forall (fun line => nonblank line = true
                                  /\ contains_char "010"%char line = false)
                ["stash@{0}: WIP on main"; "stash@{1}: On main: spike"]).
  { repeat constructor. }
  destruct (status_lines_printed _ H) as [H1 H2].
  split; [exact H1|].
  exact (H2 exec_ahead ["repo"] EmptyString eq_refl eq_refl).
Defined.

Lemma filter_disjoint_length {A} (f g : A -> bool) (l : list A) :
  (forall x, f x = true -> g x = false) ->
  JS.length (filter f l) + JS.length (filter g l) <= JS.length l.
Proof.
  intros Hfg. unfold JS.length.
  induction l as [|x l IH]; [cbn; lia|].
  cbn [filter]. destruct (f x) eqn:F.
  - rewrite (Hfg x F). cbn [List.length]. lia.
  - destruct (g x); cbn [List.length]; lia.
Qed.

Lemma prefix2 a b line :
  JS.startsWith line (String a (String b EmptyString)) = true <->
  exists rest, line = String a (String b rest).
Proof.
  unfold JS.startsWith. split.
  - destruct line as [|c1 [|c2 rest]]; cbn [String.prefix].
    + discriminate.
    + destruct (ascii_dec a c1); discriminate.
    + destruct (ascii_dec a c1) as [<-|]; [|discriminate].
      destruct (ascii_dec b c2) as [<-|]; [|discriminate].
      intros _. exists rest. reflexivity.
  - intros (rest & ->). cbn [String.prefix].
    destruct (ascii_dec a a); [|congruence].
    destruct (ascii_dec b b); [destruct rest; reflexivity|congruence].
Qed.

Lemma untracked_exclusive line :
  test_untracked line = true ->
  test_staged line = false /\ test_modified line = false
  /\ test_conflict line = false.
Proof.
  unfold test_untracked. intros H. apply prefix2 in H.
  destruct H as (rest & ->). repeat split.
Qed.

(** X4. The four category counts of a collected record lie between 0 and
    the number of status lines, and an untracked line is in no other
    category: each of staged, modified and conflicts, added to untracked,
    stays within the number of status lines. *)
Theorem getGitStatus_count_bounds (execSync : execSync_t) (repoPath : path)
  (b : string) (s m u c up st : Z) (h : bool) (status : string) :
  getGitStatus execSync repoPath = Status b s m u c up st h ->
  execSync git_status_porcelain repoPath = Returned status ->
  let total := JS.length (status_lines status) in
  0 <= s /\ 0 <= m /\ 0 <= u /\ 0 <= c /\ 0 <= st
  /\ s + u <= total /\ m + u <= total /\ c + u <= total.
Proof.
  unfold getGitStatus. intros H Hs. rewrite Hs in H.
  inversion H; subst; clear H. cbv zeta.
  pose proof (filter_disjoint_length test_untracked test_staged
                (status_lines status)
                (fun x Hx => proj1 (untracked_exclusive x Hx))).
  pose proof (filter_disjoint_length test_untracked test_modified
                (status_lines status)
                (fun x Hx => proj1 (proj2 (untracked_exclusive x Hx)))).
  pose proof (filter_disjoint_length test_untracked test_conflict
                (status_lines status)
                (fun x Hx => proj2 (proj2 (untracked_exclusive x Hx)))).
  assert (Hst : 0 <= match execSync git_stash_list repoPath with
                     | Returned stashList => JS.length (status_lines stashList)
                     | Thrown _ => 0
                     end).
  { destruct (execSync git_stash_list repoPath); unfold JS.length; lia. }
  unfold JS.length in *. lia.
Qed.

Lemma getGitStatus_count_bounds_witness :
  0 <= 1 /\ 0 <= 1 /\ 0 <= 1 /\ 0 <= 1 /\ 0 <= 0
  /\ 1 + 1 <= JS.length (status_lines (printed_lines example_lines))
  /\ 1 + 1 <= JS.length (status_lines (printed_lines example_lines))
  /\ 1 + 1 <= JS.length (status_lines (printed_lines example_lines)).
Proof.
  apply (getGitStatus_count_bounds
           (exec_const (Returned (printed_lines example_lines))
              (Returned "main") (Returned "0") (Returned EmptyString))
           ["repo"] "main" 1 1 1 1 0 0 true (printed_lines example_lines));
    reflexivity.
Defined.

Lemma filter_or_length {A} (f g : A -> bool) (l : list A) :
  (forall x, f x = true -> g x = false) ->
  JS.length (filter (fun x => f x || g x) l)
  = JS.length (filter f l) + JS.length (filter g l).
Proof.
  intros Hfg. unfold JS.length.
  induction l as [|x l IH]; [reflexivity|].
  cbn [filter]. destruct (f x) eqn:F.
  - rewrite (Hfg x F). cbn [orb List.length]. lia.
  - cbn [orb]. destruct (g x); cbn [List.length]; lia.
Qed.

Lemma conflict_line_kinds line :
  (JS.startsWith line "UU" = true ->
   test_staged line = false /\ test_modified line = false
   /\ test_untracked line = false
   /\ JS.startsWith line "AA" = false /\ JS.startsWith line "DD" = false)
  /\ (JS.startsWith line "AA" = true ->
      test_staged line = true /\ test_modified line = false
      /\ test_untracked line = false /\ JS.startsWith line "DD" = false)
  /\ (JS.startsWith line "DD" = true ->
      test_staged line = true /\ test_modified line = true
      /\ test_untracked line = false).
Proof.
  split; [|split]; intros H; apply prefix2 in H; destruct H as (rest & ->);
    repeat split.
Qed.

(** X5. A conflict line is a line that starts with UU, AA or DD. The AA
    and DD lines are counted as staged too, and a DD line as modified as
    well, so one DD line adds to three counts; a UU line adds to the
    conflict count alone. In the record of a repository the conflict
    count is the number of UU, AA and DD lines of the status output, the
    staged count includes the AA and DD lines and none of the UU lines,
    the modified count includes the DD lines and none of the UU and AA
    lines, and the untracked count includes no conflict line. *)
Theorem conflict_lines_counted :
  (forall line,
     test_conflict line = true ->
     (JS.startsWith line "UU" = true
      /\ test_staged line = false /\ test_modified line = false
      /\ test_untracked line = false)
     \/ (JS.startsWith line "AA" = true
         /\ test_staged line = true /\ test_modified line = false
         /\ test_untracked line = false)
     \/ (JS.startsWith line "DD" = true
         /\ test_staged line = true /\ test_modified line = true
         /\ test_untracked line = false))
  /\ (forall execSync repoPath status,
        execSync git_status_porcelain repoPath = Returned status ->
        let lines := status_lines status in
        let nUU := JS.length (filter (fun l => JS.startsWith l "UU") lines) in
        let nAA := JS.length (filter (fun l => JS.startsWith l "AA") lines) in
        let nDD := JS.length (filter (fun l => JS.startsWith l "DD") lines) in
        exists s m u c,
          staged_of (getGitStatus execSync repoPath) = Some s
          /\ modified_of (getGitStatus execSync repoPath) = Some m
          /\ untracked_of (getGitStatus execSync repoPath) = Some u
          /\ conflicts_of (getGitStatus execSync repoPath) = Some c
          /\ c = nUU + nAA + nDD
          /\ nAA + nDD <= s /\ s + nUU <= JS.length lines
          /\ nDD <= m /\ m + nUU + nAA <= JS.length lines
          /\ u + c <= JS.length lines).
Proof.
  split.
  - intros line. unfold test_conflict. rewrite !orb_true_iff.
    destruct (conflict_line_kinds line) as (HU & HA & HD).
    intros [[H|H]|H].
    + left. split; [exact H|]. destruct (HU H) as (? & ? & ? & _). auto.
    + right. left. split; [exact H|]. destruct (HA H) as (? & ? & ? & _). auto.
    + right. right. split; [exact H|]. exact (HD H).
  - intros execSync repoPath status H lines nUU nAA nDD.
    unfold getGitStatus. rewrite H.
    cbn [staged_of modified_of untracked_of conflicts_of]. fold lines.
    do 4 eexists. do 4 (split; [reflexivity|]).
    assert (EUA : JS.length (filter (fun l => JS.startsWith l "UU" || JS.startsWith l "AA") lines)
                  = nUU + nAA).
    { apply filter_or_length. intros l Hl.
      apply (proj1 (conflict_line_kinds l) Hl). }
    assert (EAD : JS.length (filter (fun l => JS.startsWith l "AA" || JS.startsWith l "DD") lines)
                  = nAA + nDD).
    { apply filter_or_length. intros l Hl.
      apply (proj1 (proj2 (conflict_line_kinds l)) Hl). }
    assert (EC : JS.length (filter test_conflict lines) = nUU + nAA + nDD).
    { unfold test_conflict.
      rewrite (filter_or_length
                 (fun l => JS.startsWith l "UU" || JS.startsWith l "AA")
                 (fun l => JS.startsWith l "DD")).
      - rewrite EUA. reflexivity.
      - intros l Hl. apply orb_true_iff in Hl. destruct Hl as [Hl|Hl].
        + apply (proj1 (conflict_line_kinds l) Hl).
        + apply (proj1 (proj2 (conflict_line_kinds l)) Hl). }
    split; [exact EC|]. rewrite EC.
    split; [|split; [|split; [|split]]].
    + rewrite <- EAD. apply filter_length_impl. intros l Hl.
      apply orb_true_iff in Hl. destruct Hl as [Hl|Hl].
      * apply (proj1 (proj2 (conflict_line_kinds l)) Hl).
      * apply (proj2 (proj2 (conflict_line_kinds l)) Hl).
    + pose proof (filter_disjoint_length (fun l => JS.startsWith l "UU")
                    test_staged lines
                    (fun l Hl => proj1 (proj1 (conflict_line_kinds l) Hl)))
        as Hs.
      fold nUU in Hs. lia.
    + apply filter_length_impl. intros l Hl.
      apply (proj2 (proj2 (conflict_line_kinds l)) Hl).
    + pose proof (filter_disjoint_length
                    (fun l => JS.startsWith l "UU" || JS.startsWith l "AA")
                    test_modified lines) as Hm.
      rewrite EUA in Hm. cut (nUU + nAA + JS.length (filter test_modified lines)
                              <= JS.length lines); [lia|].
      apply Hm. intros l Hl. apply orb_true_iff in Hl. destruct Hl as [Hl|Hl].
      * apply (proj1 (conflict_line_kinds l) Hl).
      * apply (proj1 (proj2 (conflict_line_kinds l)) Hl).
    + rewrite <- EC.
      apply (filter_disjoint_length test_untracked test_conflict lines).
      intros l Hl. apply (untracked_exclusive l Hl).
Qed.

Lemma conflict_lines_counted_witness :
  (test_conflict "DD gone.txt" = true
   /\ test_staged "DD gone.txt" = true /\ test_modified "DD gone.txt" = true)
  /\ getGitStatus exec_merging ["repo"] = Status "main" 2 1 1 3 0 0 true
  /\ exists s m u c,
       staged_of (getGitStatus exec_merging ["repo"]) = Some s
       /\ modified_of (getGitStatus exec_merging ["repo"]) = Some m
       /\ untracked_of (getGitStatus exec_merging ["repo"]) = Some u
       /\ conflicts_of (getGitStatus exec_merging ["repo"]) = Some c
       /\ c = 1 + 1 + 1
       /\ 1 + 1 <= s /\ s + 1 <= 4 /\ 1 <= m /\ m + 1 + 1 <= 4 /\ u + c <= 4.
Proof.
  destruct conflict_lines_counted as [Hline Hrecord].
  split; [|split; [reflexivity|]].
  - split; [reflexivity|].
    destruct (Hline "DD gone.txt" eq_refl)
      as [(H & _)|[(H & _)|(_ & Hs & Hm & _)]];
      [discriminate H|discriminate H|split; assumption].
  - exact (Hrecord exec_merging ["repo"] _ eq_refl).
Defined.

(** ** The report *)

Lemma push_if_positive_Forall (P : indicator -> Prop) x mk parts :
  (forall v, v > 0 -> P (mk v)) ->
  Forall P parts -> Forall P (push_if_positive x mk parts).
Proof.
  intros Hmk Hparts. unfold push_if_positive. destruct x as [v|]; [|exact Hparts].
  destruct (v >? 0) eqn:E; [|exact Hparts].
  apply Forall_app. split; [exact Hparts|]. constructor; [|constructor].
  apply Hmk. apply Z.gtb_lt in E. lia.
Qed.

Lemma parts_positive status :
  Forall (fun i => indicator_count i > 0)
    (push_if_positive (stashes_of status) stashed_changes
       (push_if_positive (unpushed_of status) unpushed_commits
          (push_if_positive (conflicts_of status) conflict_files
             (push_if_positive (untracked_of status) untracked_files
                (push_if_positive (modified_of status) modified_files
                   (push_if_positive (staged_of status) staged_files [])))))).
Proof.
  repeat (apply push_if_positive_Forall; [intros v Hv; exact Hv|]).
  constructor.
Qed.

Lemma formatStatus_entry repoPath basePath status e :
  formatStatus repoPath status basePath = Some e ->
  entry_path e = Path.relative basePath repoPath /\ is_clean_entry e = false.
Proof.
  unfold formatStatus.
  destruct (match error_of status with
            | Some e0 => JS.truthy e0
            | None => false
            end).
  - intros H. injection H as <-. split; reflexivity.
  - destruct (negb (hasChanges status)); [discriminate|].
    intros H. injection H as <-. split; reflexivity.
Qed.

(** X6. [formatStatus] gives an error entry for a record with a
    non-empty error, nothing for a record without error and without
    changes, and a pending entry otherwise; every entry carries the path
    relative to the scan root, and every indicator of a pending entry
    shows a positive count. *)
Theorem formatStatus_kinds (repoPath basePath : path) (status : StatusRecord) :
  (forall e,
     formatStatus repoPath status basePath = Some e ->
     entry_path e = Path.relative basePath repoPath
     /\ is_clean_entry e = false)
  /\ (forall rel message,
        formatStatus repoPath status basePath = Some (entry_error rel message) <->
        rel = Path.relative basePath repoPath
        /\ error_of status = Some message /\ message <> EmptyString)
  /\ (formatStatus repoPath status basePath = None <->
      match error_of status with Some e => e = EmptyString | None => True end
      /\ hasChanges status = false)
  /\ (forall rel b parts,
        formatStatus repoPath status basePath = Some (entry_pending rel b parts) ->
        hasChanges status = true
        /\ Forall (fun i => indicator_count i > 0) parts).
Proof.
  assert (Hentry : forall e,
            formatStatus repoPath status basePath = Some e ->
            entry_path e = Path.relative basePath repoPath
            /\ is_clean_entry e = false)
    by (intros e; apply formatStatus_entry).
  split; [exact Hentry|]. clear Hentry.
  unfold formatStatus.
  destruct status as [b s m u c up st h|[|ch msg] h]; cbn [error_of hasChanges JS.truthy].
  - split; [|split].
    + intros rel message. split.
      * destruct h; cbn [negb]; discriminate.
      * intros (_ & H & _). discriminate.
    + destruct h; cbn [negb]; split; try discriminate; try tauto.
      intros [_ H]. discriminate.
    + intros rel b' parts. destruct h; cbn [negb]; [|discriminate].
      intros H. injection H as _ _ <-. split; [reflexivity|].
      exact (parts_positive (Status b s m u c up st true)).
  - split; [|split].
    + intros rel message. split.
      * destruct h; cbn [negb]; discriminate.
      * intros (_ & H & Hne). injection H as <-. congruence.
    + destruct h; cbn [negb]; split; try discriminate; try tauto.
      intros [_ H]. discriminate.
    + intros rel b parts. destruct h; cbn [negb]; [|discriminate].
      intros H. injection H as _ _ <-. split; [reflexivity|]. constructor.
  - split; [|split].
    + intros rel message. split.
      * intros H. injection H as <- <-. repeat split. discriminate.
      * intros (-> & H & _). injection H as <-. reflexivity.
    + split; [discriminate|]. intros [H _]. discriminate.
    + intros rel b parts H. discriminate.
Qed.

Lemma formatStatus_kinds_witness :
  hasChanges (getGitStatus exec_ahead ["work"; "repo"]) = true
  /\ Forall (fun i => indicator_count i > 0)
        [unpushed_commits 4; stashed_changes 2].
Proof.
  apply (proj2 (proj2 (proj2
           (formatStatus_kinds ["work"; "repo"] ["work"]
              (getGitStatus exec_ahead ["work"; "repo"]))))
           ["repo"] "feature/x").
  reflexivity.
Defined.

Lemma entries_of_all execSync sp repoPath :
  exists e, entries_of execSync sp true repoPath = [e]
            /\ entry_path e = Path.relative sp repoPath.
Proof.
  unfold entries_of.
  destruct (formatStatus repoPath (getGitStatus execSync repoPath) sp) as [e|] eqn:F.
  - exists e. split; [reflexivity|].
    exact (proj1 (formatStatus_entry _ _ _ _ F)).
  - eexists. split; reflexivity.
Qed.

Lemma formatStatus_reported execSync sp repoPath :
  reported execSync repoPath = true <->
  exists e, formatStatus repoPath (getGitStatus execSync repoPath) sp = Some e.
Proof.
  unfold reported, formatStatus.
  destruct (match error_of (getGitStatus execSync repoPath) with
            | Some e => JS.truthy e
            | None => false
            end); cbn [orb].
  - split; [eexists; reflexivity|reflexivity].
  - destruct (hasChanges (getGitStatus execSync repoPath)); cbn [negb].
    + split; [eexists; reflexivity|reflexivity].
    + split; [discriminate|intros [e H]; discriminate].
Qed.

Lemma entries_of_pending execSync sp :
  forall repos,
    map entry_path (flat_map (entries_of execSync sp false) repos)
    = map (Path.relative sp) (filter (reported execSync) repos)
    /\ Forall (fun e => is_clean_entry e = false)
         (flat_map (entries_of execSync sp false) repos).
Proof.
  induction repos as [|r repos [IH1 IH2]]; [split; [reflexivity|constructor]|].
  cbn [flat_map filter]. unfold entries_of at 1 3.
  pose proof (formatStatus_reported execSync sp r) as Hrep.
  destruct (formatStatus r (getGitStatus execSync r) sp) as [e|] eqn:F.
  - assert (R : reported execSync r = true) by (apply Hrep; eexists; reflexivity).
    rewrite R. cbn [app map].
    destruct (formatStatus_entry _ _ _ _ F) as [Hp Hc].
    rewrite Hp, IH1. split; [reflexivity|]. constructor; assumption.
  - assert (R : reported execSync r = false).
    { destruct (reported execSync r); [|reflexivity].
      destruct (proj1 Hrep eq_refl) as [e He]. discriminate. }
    rewrite R. cbn [app]. split; assumption.
Qed.

Lemma printed_results_main argv cwd root execSync :
  let o := options_of argv cwd in
  showHelp o = false ->
  existsSync root (searchPath o) = true ->
  printed_results (printed (main argv cwd root execSync))
  = flat_map (entries_of execSync (searchPath o) (showAll o))
      (findGitReposIn root (searchPath o) (maxDepth o)).
Proof.
  intros o Hh He.
  destruct (findGitReposIn root (searchPath o) (maxDepth o)) as [|r rs] eqn:E.
  - rewrite (main_nothing_found argv cwd root execSync Hh He E). reflexivity.
  - assert (Hne : findGitReposIn root (searchPath (options_of argv cwd))
                    (maxDepth (options_of argv cwd)) <> []).
    { fold o. rewrite E. discriminate. }
    rewrite (main_scanned argv cwd root execSync Hh He Hne). fold o. rewrite E.
    cbn [printed].
    destruct (flat_map (entries_of execSync (searchPath o) (showAll o)) (r :: rs))
      as [|e es] eqn:R; [reflexivity|].
    cbn. rewrite app_nil_r. reflexivity.
Qed.

(** X7. With [--all] the report has one entry for every repository the
    walker found, in the order the walker found them, each under its path
    relative to the scan root. *)
Theorem main_all_entries (argv : list string) (cwd : path) (root : node)
  (execSync : execSync_t) :
  let o := options_of argv cwd in
  showHelp o = false ->
  existsSync root (searchPath o) = true ->
  showAll o = true ->
  map entry_path (printed_results (printed (main argv cwd root execSync)))
  = map (Path.relative (searchPath o))
      (findGitReposIn root (searchPath o) (maxDepth o)).
Proof.
  intros o Hh He Ha.
  rewrite (printed_results_main argv cwd root execSync Hh He). fold o. rewrite Ha.
  induction (findGitReposIn root (searchPath o) (maxDepth o)) as [|r rs IH];
    [reflexivity|].
  cbn [flat_map map]. rewrite map_app, IH.
  destruct (entries_of_all execSync (searchPath o) r) as (e & -> & <-).
  reflexivity.
Qed.

Lemma main_all_entries_witness :
  map entry_path
    (printed_results
       (printed (main ["node"; "git-pend"; "-a"; "/work"] ["home"]
                   tree_pair exec_pair)))
  = [["good"]; ["bad"]].
Proof.
  apply (main_all_entries ["node"; "git-pend"; "-a"; "/work"] ["home"]
           tree_pair exec_pair); reflexivity.
Defined.

(** X8. Without [--all] the report has an entry exactly for the
    repositories with an error or with changes, in the order the walker
    found them, and none of its entries is a clean one. *)
Theorem main_pending_entries (argv : list string) (cwd : path) (root : node)
  (execSync : execSync_t) :
  let o := options_of argv cwd in
  showHelp o = false ->
  existsSync root (searchPath o) = true ->
  showAll o = false ->
  map entry_path (printed_results (printed (main argv cwd root execSync)))
  = map (Path.relative (searchPath o))
      (filter (reported execSync)
         (findGitReposIn root (searchPath o) (maxDepth o)))
  /\ Forall (fun e => is_clean_entry e = false)
       (printed_results (printed (main argv cwd root execSync))).
Proof.
  intros o Hh He Ha.
  rewrite (printed_results_main argv cwd root execSync Hh He). fold o. rewrite Ha.
  apply entries_of_pending.
Qed.

Lemma main_pending_entries_witness :
  map entry_path
    (printed_results
       (printed (main ["node"; "git-pend"; "/work"] ["home"]
                   tree_fifteen exec_fifteen)))
  = [["r03"]; ["r11"]]
  /\ Forall (fun e => is_clean_entry e = false)
       (printed_results
          (printed (main ["node"; "git-pend"; "/work"] ["home"]
                      tree_fifteen exec_fifteen))).
Proof.
  apply (main_pending_entries ["node"; "git-pend"; "/work"] ["home"]
           tree_fifteen exec_fifteen); reflexivity.
Defined.

(** ** The summary *)

Lemma reposPending_length execSync repos :
  0 <= JS.length (reposPending execSync repos) <= JS.length repos.
Proof.
  pose proof (filter_length_bound
                (fun r => hasChanges (getGitStatus execSync r)) repos).
  unfold reposPending, JS.length in *. lia.
Qed.

(** X9. The exit status is 0 or 1. Whenever [main] prints a summary, at
    least one repository was scanned, the number with changes lies
    between 0 and the total, the clean number is the total less the
    number with changes, and the exit status is 1 exactly when the number
    with changes is positive. *)
Theorem main_summary_consistent (argv : list string) (cwd : path) (root : node)
  (execSync : execSync_t) :
  let out := main argv cwd root execSync in
  (exitCode out = 0 \/ exitCode out = 1)
  /\ forall t w c,
       In (total_scanned t) (printed out) ->
       In (with_changes w) (printed out) ->
       In (clean_repositories c) (printed out) ->
       1 <= t /\ 0 <= w <= t /\ c = t - w /\ 0 <= c
       /\ (exitCode out = 1 <-> w > 0).
Proof.
  cbv zeta. rewrite main_eq. cbv zeta.
  set (o := options_of argv cwd).
  set (repos := findGitReposIn root (searchPath o) (maxDepth o)).
  destruct (showHelp o).
  { split; [left; reflexivity|]. intros t w c [H|[]]. discriminate. }
  destruct (negb (existsSync root (searchPath o))).
  { split; [right; reflexivity|]. intros t w c [H|[]]. discriminate. }
  destruct (Z.eqb_spec (JS.length repos) 0) as [E|E].
  { split; [left; reflexivity|]. intros t w c [H|[H|[]]]; discriminate. }
  pose proof (reposPending_length execSync repos) as Hp.
  assert (Ht : 1 <= JS.length repos) by (unfold JS.length in *; lia).
  cbn [exitCode printed]. split.
  { destruct (JS.length (reposPending execSync repos) >? 0); auto. }
  intros t w c Ht' Hw' Hc'.
  assert (Hsel : forall x,
    In x ([scanning_in (searchPath o)]
          ++ (if JS.length (flat_map (entries_of execSync (searchPath o) (showAll o)) repos) >? 0
              then [results_text (flat_map (entries_of execSync (searchPath o) (showAll o)) repos)]
              else [])
          ++ [summary_header; total_scanned (JS.length repos);
              with_changes (JS.length (reposPending execSync repos));
              clean_repositories
                (JS.length repos - JS.length (reposPending execSync repos))]) ->
    x = scanning_in (searchPath o)
    \/ (exists rs, x = results_text rs)
    \/ x = summary_header
    \/ x = total_scanned (JS.length repos)
    \/ x = with_changes (JS.length (reposPending execSync repos))
    \/ x = clean_repositories
             (JS.length repos - JS.length (reposPending execSync repos))).
  { intros x Hx. rewrite !in_app_iff in Hx. cbn [In] in Hx.
    destruct Hx as [[<-|[]]|[Hx|Hx]].
    - auto.
    - destruct (JS.length (flat_map _ repos) >? 0); [|destruct Hx].
      destruct Hx as [<-|[]]. right. left. eexists. reflexivity.
    - intuition auto. }
  apply Hsel in Ht'. apply Hsel in Hw'. apply Hsel in Hc'.
  assert (Et : t = JS.length repos).
  { destruct Ht' as [H|[[rs H]|[H|[H|[H|H]]]]]; try discriminate.
    injection H as ->. reflexivity. }
  assert (Ew : w = JS.length (reposPending execSync repos)).
  { destruct Hw' as [H|[[rs H]|[H|[H|[H|H]]]]]; try discriminate.
    injection H as ->. reflexivity. }
  assert (Ec : c = JS.length repos - JS.length (reposPending execSync repos)).
  { destruct Hc' as [H|[[rs H]|[H|[H|[H|H]]]]]; try discriminate.
    injection H as ->. reflexivity. }
  subst t w c. repeat split; try lia.
  - destruct (JS.length (reposPending execSync repos) >? 0) eqn:G.
    + intros _. apply Z.gtb_lt in G. lia.
    + discriminate.
  - intros G. apply Z.gt_lt, Z.gtb_lt in G. rewrite G. reflexivity.
Qed.

Lemma main_summary_consistent_witness :
  1 <= 15 /\ 0 <= 2 <= 15 /\ 13 = 15 - 2 /\ 0 <= 13
  /\ (exitCode (main ["node"; "git-pend"; "/work"] ["home"]
                  tree_fifteen exec_fifteen) = 1 <-> 2 > 0).
Proof.
  apply (proj2 (main_summary_consistent ["node"; "git-pend"; "/work"] ["home"]
                  tree_fifteen exec_fifteen));
    vm_compute; auto 10.
Defined.

(** ** The command line *)

Lemma args_induction (P : list string -> Prop) :
  (forall args, (forall args', (List.length args' < List.length args)%nat -> P args')
                -> P args) ->
  forall args, P args.
Proof.
  intros step args. apply step.
  induction args as [|a args IH]; intros args' Hlt; cbn [List.length] in Hlt.
  - lia.
  - apply step. intros args'' Hlt'. apply IH. lia.
Qed.

(** A property of the options that every branch of the loop keeps holds
    after the loop. *)
Lemma parseArgs_invariant (P : options -> Prop) (cwd : path) :
  (forall o, P o -> P (mkOptions (searchPath o) (maxDepth o) (showAll o) true)) ->
  (forall o, P o -> P (mkOptions (searchPath o) (maxDepth o) true (showHelp o))) ->
  (forall o v, P o ->
     P (mkOptions (searchPath o) (JS.or_number v 3) (showAll o) (showHelp o))) ->
  (forall o arg, P o -> JS.startsWith arg "-" = false ->
     P (mkOptions (Path.resolve cwd arg) (maxDepth o) (showAll o) (showHelp o))) ->
  forall args o, P o -> P (parseArgs cwd args o).
Proof.
  intros Hh Ha Hd Hp args.
  induction args as [args IH] using args_induction. intros o Ho.
  destruct args as [|arg rest]; [exact Ho|].
  cbn [parseArgs].
  destruct ((arg =? "-h")%string || (arg =? "--help")%string).
  { apply IH; [cbn; lia|apply Hh, Ho]. }
  destruct ((arg =? "-a")%string || (arg =? "--all")%string).
  { apply IH; [cbn; lia|apply Ha, Ho]. }
  destruct ((arg =? "-d")%string || (arg =? "--depth")%string).
  { destruct rest as [|v rest']; [apply Hd, Ho|].
    apply IH; [cbn; lia|apply Hd, Ho]. }
  destruct (JS.startsWith arg "-") eqn:E; cbn [negb].
  - apply IH; [cbn; lia|exact Ho].
  - apply IH; [cbn; lia|apply Hp; assumption].
Qed.






(** X11. When the first argument is [-h] or [--help], the program prints
    the help text and exits with 0 whatever follows: later arguments do
    not take the request back, and no path is looked at. *)
Theorem main_help_first (exe script flag : string) (rest : list string)
  (cwd : path) (root : node) (execSync : execSync_t) :
  flag = "-h" \/ flag = "--help" ->
  main (exe :: script :: flag :: rest) cwd root execSync
  = mkOutcome [help_text] 0.
Proof.
  intros Hflag. rewrite main_eq. cbv zeta.
  assert (H : showHelp (options_of (exe :: script :: flag :: rest) cwd) = true).
  { unfold options_of. cbn [skipn parseArgs].
    assert (E : ((flag =? "-h")%string || (flag =? "--help")%string) = true)
      by (destruct Hflag as [->| ->]; reflexivity).
    rewrite E.
    apply (parseArgs_invariant (fun o => showHelp o = true)); cbn [showHelp];
      try (intros; assumption); reflexivity. }
  rewrite H. reflexivity.
Qed.

Lemma main_help_first_witness :
  main ["node"; "git-pend"; "--help"; "-d"; "2"; "/nowhere"] ["home"]
    tree_fifteen exec_fifteen
  = mkOutcome [help_text] 0.
Proof.
  apply main_help_first. right. reflexivity.
Defined.

Lemma parseArgs_with_showAll cwd args :
  forall o,
    parseArgs cwd args (with_showAll o) = with_showAll (parseArgs cwd args o).
Proof.
  induction args as [args IH] using args_induction. intros o.
  destruct args as [|arg rest]; [reflexivity|].
  cbn [parseArgs].
  destruct ((arg =? "-h")%string || (arg =? "--help")%string).
  { apply (IH rest (Nat.lt_succ_diag_r _)
             (mkOptions (searchPath o) (maxDepth o) (showAll o) true)). }
  destruct ((arg =? "-a")%string || (arg =? "--all")%string).
  { pose proof (IH rest (Nat.lt_succ_diag_r _) (with_showAll o)) as E.
    pose proof (IH rest (Nat.lt_succ_diag_r _) o) as E'.
    change (parseArgs cwd rest (with_showAll o)
            = with_showAll (parseArgs cwd rest (with_showAll o))).
    rewrite E'. reflexivity. }
  destruct ((arg =? "-d")%string || (arg =? "--depth")%string).
  { destruct rest as [|v rest']; [reflexivity|].
    assert (L : (List.length rest' < List.length (arg :: v :: rest'))%nat)
      by (cbn; lia).
    apply (IH rest' L
             (mkOptions (searchPath o) (JS.or_number (JS.parseInt v) 3)
                (showAll o) (showHelp o))). }
  destruct (negb (JS.startsWith arg "-")).
  - apply (IH rest (Nat.lt_succ_diag_r _)
             (mkOptions (Path.resolve cwd arg) (maxDepth o) (showAll o) (showHelp o))).
  - apply (IH rest (Nat.lt_succ_diag_r _) o).
Qed.

(** X12. Putting [-a] or [--all] in front of the arguments changes only
    the entries of the report: the exit status and everything else the
    program writes, the summary included, stay the same. *)
Theorem main_all_keeps_summary (exe script flag : string) (rest : list string)
  (cwd : path) (root : node) (execSync : execSync_t) :
  flag = "-a" \/ flag = "--all" ->
  exitCode (main (exe :: script :: flag :: rest) cwd root execSync)
  = exitCode (main (exe :: script :: rest) cwd root execSync)
  /\ without_results (printed (main (exe :: script :: flag :: rest) cwd root execSync))
     = without_results (printed (main (exe :: script :: rest) cwd root execSync)).
Proof.
  intros Hflag.
  assert (Ho : options_of (exe :: script :: flag :: rest) cwd
               = with_showAll (options_of (exe :: script :: rest) cwd)).
  { unfold options_of. cbn [skipn parseArgs].
    assert (E1 : ((flag =? "-h")%string || (flag =? "--help")%string) = false)
      by (destruct Hflag as [->| ->]; reflexivity).
    assert (E2 : ((flag =? "-a")%string || (flag =? "--all")%string) = true)
      by (destruct Hflag as [->| ->]; reflexivity).
    rewrite E1, E2.
    apply (parseArgs_with_showAll cwd rest (mkOptions cwd 3 false false)). }
  rewrite !main_eq. cbv zeta. rewrite Ho.
  set (o := options_of (exe :: script :: rest) cwd).
  cbn [with_showAll searchPath maxDepth showHelp showAll].
  destruct (showHelp o); [split; reflexivity|].
  destruct (negb (existsSync root (searchPath o))); [split; reflexivity|].
  destruct (JS.length (findGitReposIn root (searchPath o) (maxDepth o)) =? 0);
    [split; reflexivity|].
  cbn [exitCode printed]. split; [reflexivity|].
  unfold without_results. rewrite !filter_app.
  f_equal. f_equal.
  match goal with
  | |- filter _ (if ?a then _ else _) = filter _ (if ?b then _ else _) =>
      destruct a; destruct b; reflexivity
  end.
Qed.

Lemma main_all_keeps_summary_witness :
  exitCode (main ["node"; "git-pend"; "--all"; "/work"] ["home"]
              tree_fifteen exec_fifteen)
  = exitCode (main ["node"; "git-pend"; "/work"] ["home"]
                tree_fifteen exec_fifteen)
  /\ without_results
       (printed (main ["node"; "git-pend"; "--all"; "/work"] ["home"]
                   tree_fifteen exec_fifteen))
     = without_results
         (printed (main ["node"; "git-pend"; "/work"] ["home"]
                     tree_fifteen exec_fifteen)).
Proof.
  apply main_all_keeps_summary. right. reflexivity.
Defined.

Lemma parseArgs_no_positional cwd args :
  forall o,
    Forall (fun arg => JS.startsWith arg "-" = true) args ->
    searchPath (parseArgs cwd args o) = searchPath o.
Proof.
  induction args as [args IH] using args_induction. intros o Hall.
  destruct args as [|arg rest]; [reflexivity|].
  inversion Hall as [|? ? Harg Hrest]; subst.
  cbn [parseArgs].
  destruct ((arg =? "-h")%string || (arg =? "--help")%string).
  { rewrite (IH rest (Nat.lt_succ_diag_r _) _ Hrest). reflexivity. }
  destruct ((arg =? "-a")%string || (arg =? "--all")%string).
  { rewrite (IH rest (Nat.lt_succ_diag_r _) _ Hrest). reflexivity. }
  destruct ((arg =? "-d")%string || (arg =? "--depth")%string).
  { destruct rest as [|v rest']; [reflexivity|].
    inversion Hrest; subst.
    assert (L : (List.length rest' < List.length (arg :: v :: rest'))%nat)
      by (cbn; lia).
    rewrite (IH rest' L); [reflexivity|assumption]. }
  rewrite Harg. cbn [negb].
  exact (IH rest (Nat.lt_succ_diag_r _) _ Hrest).
Qed.

(** X13. When every argument starts with a dash, the directory scanned
    is the working directory. *)
Theorem options_default_path (argv : list string) (cwd : path) :
  Forall (fun arg => JS.startsWith arg "-" = true) (skipn 2 argv) ->
  searchPath (options_of argv cwd) = cwd.
Proof.
  intros H. unfold options_of.
  exact (parseArgs_no_positional cwd _ (mkOptions cwd 3 false false) H).
Qed.

Lemma options_default_path_witness :
  searchPath (options_of ["node"; "git-pend"; "-a"; "-d"; "-x"; "--verbose"]
                ["home"; "me"])
  = ["home"; "me"].
Proof.
  apply options_default_path. repeat constructor.
Defined.

(** X14. With a negative maximum depth nothing is listed: the program
    reports that it found no repository and exits with 0, whatever the
    scanned directory holds. *)
Theorem main_negative_depth (argv : list string) (cwd : path) (root : node)
  (execSync : execSync_t) :
  let o := options_of argv cwd in
  showHelp o = false ->
  existsSync root (searchPath o) = true ->
  maxDepth o < 0 ->
  main argv cwd root execSync
  = mkOutcome [scanning_in (searchPath o); no_repositories_found] 0.
Proof.
  intros o Hh He Hd.
  apply (main_nothing_found argv cwd root execSync Hh He).
  fold o. unfold findGitReposIn.
  destruct (lookup root (searchPath o)); [|reflexivity].
  rewrite findGitRepos_eq.
  assert (E : (0 >? maxDepth o) = true) by (apply Z.gtb_lt; exact Hd).
  rewrite E. reflexivity.
Qed.

Lemma main_negative_depth_witness :
  main ["node"; "git-pend"; "-d"; "-1"; "/work"] ["home"] tree_fifteen exec_fifteen
  = mkOutcome [scanning_in ["work"]; no_repositories_found] 0.
Proof.
  apply (main_negative_depth ["node"; "git-pend"; "-d"; "-1"; "/work"] ["home"]
           tree_fifteen exec_fifteen); reflexivity.
Defined.

(** ** More on the walker *)

(** X15. Raising the maximum depth never loses a repository: what a scan
    returns is returned by every scan of the same tree with a greater
    maximum depth. *)
Theorem findGitRepos_depth_monotone (n : node) (base : path) (D D' d : Z) :
  D <= D' ->
  forall p, In p (findGitRepos n base D d) -> In p (findGitRepos n base D' d).
Proof.
  intros Hle p H. apply findGitRepos_spec in H.
  destruct H as (rel & -> & Hr & Hb).
  apply findGitRepos_spec. exists rel. split; [reflexivity|].
  split; [exact Hr|lia].
Qed.

Lemma findGitRepos_depth_monotone_witness :
  In ["a"] (findGitRepos tree_deep [] 5 0).
Proof.
  apply (findGitRepos_depth_monotone tree_deep [] 0 5 0); [lia|].
  left. reflexivity.
Defined.

Lemma map_flat_map_list {A B C} (f : B -> C) (g : A -> list B) (l : list A) :
  map f (flat_map g l) = flat_map (fun x => map f (g x)) l.
Proof.
  induction l as [|x l IH]; [reflexivity|].
  cbn [flat_map]. rewrite map_app, IH. reflexivity.
Qed.

(** X16. The walker depends on the base path and on the two depths only
    in this way: the result at base path [base] is the result at the
    empty base path with [base] put in front of every path, and it
    depends on the depths through the difference of the maximum and the
    current depth. *)
Theorem findGitRepos_relocate (n : node) :
  forall (base : path) (D d : Z),
    findGitRepos n base D d
    = map (fun rel => base ++ rel) (findGitRepos n [] (D - d) 0).
Proof.
  induction n as [|l es IH] using node_induction; intros base D d;
    rewrite !(findGitRepos_eq _ _ _ _).
  - destruct (d >? D), (0 >? D - d); reflexivity.
  - assert (E : (0 >? D - d) = (d >? D)).
    { destruct (d >? D) eqn:G.
      - apply Z.gtb_lt. apply Z.gtb_lt in G. lia.
      - apply not_true_is_false. intros G'. apply Z.gtb_lt in G'.
        apply not_true_iff_false in G. apply G. apply Z.gtb_lt. lia. }
    rewrite E. destruct (d >? D); [reflexivity|]. destruct l; [|reflexivity].
    rewrite map_flat_map_list.
    induction es as [|[name child] es IHes]; [reflexivity|].
    inversion IH as [|? ? IHc IHrest]; subst. cbn [snd] in IHc.
    cbn [flat_map]. rewrite (IHes IHrest). f_equal.
    destruct (isDirectory child); cbn [negb]; [|reflexivity].
    destruct (skipped name); [reflexivity|].
    destruct (isGitRepo child); [reflexivity|].
    rewrite (IHc (base ++ [name]) D (d + 1)).
    rewrite (IHc ([] ++ [name]) (D - d) (0 + 1)).
    rewrite map_map.
    replace (D - d - (0 + 1)) with (D - (d + 1)) by lia.
    apply map_ext. intros rel. rewrite <- app_assoc. reflexivity.
Qed.

Lemma isGitRepo_isDirectory dir : isGitRepo dir = true -> isDirectory dir = true.
Proof. destruct dir; [discriminate|reflexivity]. Qed.

(** X17. In a directory tree (every directory names each entry once),
    every path the walker returns names a directory of the tree that
    holds the repository marker. *)
Theorem findGitRepos_sound (n : node) (base : path) (D d : Z) (p : path) :
  well_formed n = true ->
  In p (findGitRepos n base D d) ->
  exists rel dir,
    p = base ++ rel /\ lookup n rel = Some dir
    /\ isDirectory dir = true /\ existsSync dir [".git"] = true.
Proof.
  intros Hwf H. apply findGitRepos_spec in H.
  destruct H as (rel & -> & Hr & _).
  assert (Hne : rel <> []) by (intros E; rewrite E, reaches_nil in Hr; discriminate).
  pose proof (reaches_lookup rel n [] Hwf Hne) as Hl.
  rewrite app_nil_r in Hl. specialize (Hl Hr). unfold is_repo_at in Hl.
  destruct (lookup n rel) as [dir|] eqn:L; [|discriminate].
  exists rel, dir. split; [reflexivity|]. split; [exact L|].
  split; [apply isGitRepo_isDirectory|]; exact Hl.
Qed.

Lemma findGitRepos_sound_witness :
  exists rel dir,
    ["c"; "d"; "e"] = [] ++ rel /\ lookup tree_deep rel = Some dir
    /\ isDirectory dir = true /\ existsSync dir [".git"] = true.
Proof.
  apply (findGitRepos_sound tree_deep [] 2 0); [reflexivity|].
  right. left. reflexivity.
Defined.

Lemma relative_app base : forall rel, Path.relative base (base ++ rel) = rel.
Proof.
  induction base as [|b base IH]; intros rel.
  - destruct rel; reflexivity.
  - cbn [app Path.relative]. rewrite String.eqb_refl. apply IH.
Qed.

(** X18. The path the report shows for a repository the walker found is
    what lies below the scan root: it is not empty, it leads back to the
    repository when joined to the scan root, and it never climbs out of
    the scan root. *)
Theorem relative_of_found (n : node) (base : path) (D d : Z) (p : path) :
  In p (findGitRepos n base D d) ->
  Path.relative base p <> []
  /\ base ++ Path.relative base p = p
  /\ ~ In ".." (Path.relative base p).
Proof.
  intros H. apply findGitRepos_spec in H.
  destruct H as (rel & -> & Hr & _). rewrite relative_app.
  split; [|split; [reflexivity|]].
  - intros E. rewrite E, reaches_nil in Hr. discriminate.
  - intros Hin. apply reaches_not_skipped in Hr.
    rewrite Forall_forall in Hr. specialize (Hr _ Hin). discriminate.
Qed.

Lemma relative_of_found_witness :
  Path.relative ["home"] ["home"; "proj"] <> []
  /\ ["home"] ++ Path.relative ["home"] ["home"; "proj"] = ["home"; "proj"]
  /\ ~ In ".." (Path.relative ["home"] ["home"; "proj"]).
Proof.
  apply (relative_of_found tree_mixed ["home"] 3 0). left. reflexivity.
Defined.

Lemma find_entry_marker_filter es :
  find_entry ".git" (filter (fun entry => (fst entry =? ".git")%string) es)
  = find_entry ".git" es.
Proof.
  induction es as [|[k c] es IH]; [reflexivity|].
  cbn [filter fst find_entry]. destruct (k =? ".git")%string eqn:E.
  - cbn [find_entry]. rewrite E. reflexivity.
  - exact IH.
Qed.

Lemma find_entry_map (g : node -> node) name es :
  find_entry name (map (fun entry => (fst entry, g (snd entry))) es)
  = option_map g (find_entry name es).
Proof.
  induction es as [|[k c] es IH]; [reflexivity|].
  cbn [map fst snd find_entry]. destruct (k =? name)%string; [reflexivity|exact IH].
Qed.

Lemma isGitRepo_forgive n : isGitRepo (forgive n) = isGitRepo n.
Proof.
  destruct n as [|[] es]; [reflexivity| |];
    unfold isGitRepo, existsSync; cbn [forgive lookup].
  - rewrite find_entry_map. destruct (find_entry ".git" es); reflexivity.
  - rewrite find_entry_marker_filter. reflexivity.
Qed.

Lemma isDirectory_forgive n : isDirectory (forgive n) = isDirectory n.
Proof. destruct n as [|[] es]; reflexivity. Qed.

(** X19. A directory that cannot be listed is passed over without a
    word: the walker returns the same for a tree as for the tree in
    which every such directory is an empty directory, but for its
    repository marker if it has one. *)
Theorem findGitRepos_unlistable (n : node) :
  forall (base : path) (D d : Z),
    findGitRepos (forgive n) base D d = findGitRepos n base D d.
Proof.
  induction n as [|l es IH] using node_induction; intros base D d;
    [reflexivity|].
  rewrite (findGitRepos_eq (Dir l es)), findGitRepos_eq.
  destruct (d >? D); [reflexivity|]. destruct l; cbn [forgive].
  - induction es as [|[name child] es IHes]; [reflexivity|].
    inversion IH as [|? ? IHc IHrest]; subst. cbn [snd] in IHc.
    cbn [map flat_map fst snd]. rewrite (IHes IHrest). f_equal.
    rewrite isDirectory_forgive, isGitRepo_forgive, IHc. reflexivity.
  - clear IH. induction es as [|[name child] es IHes]; [reflexivity|].
    cbn [filter fst]. destruct (String.eqb_spec name ".git") as [->|_];
      [|exact IHes].
    cbn [flat_map]. rewrite IHes.
    destruct (isDirectory child); reflexivity.
Qed.

Lemma getGitStatus_error_clean execSync repoPath e h :
  getGitStatus execSync repoPath = StatusError e h -> h = false.
Proof.
  unfold getGitStatus.
  destruct (execSync git_status_porcelain repoPath); [discriminate|].
  intros H. injection H as _ <-. reflexivity.
Qed.

Lemma formatStatus_changes execSync repoPath sp :
  hasChanges (getGitStatus execSync repoPath) = true ->
  exists b parts,
    branch_of (getGitStatus execSync repoPath) = Some b
    /\ formatStatus repoPath (getGitStatus execSync repoPath) sp
       = Some (entry_pending (Path.relative sp repoPath) b parts).
Proof.
  destruct (getGitStatus execSync repoPath) as [b s m u c up st h|e h] eqn:G.
  - cbn [hasChanges]. intros ->. exists b. eexists. split; reflexivity.
  - apply getGitStatus_error_clean in G. subst h. discriminate.
Qed.

(** X20. Every repository counted in the number with changes has a
    pending entry in the report, under its path relative to the scan root
    and with its branch, whether or not [--all] is given. *)
Theorem main_changes_reported (argv : list string) (cwd : path) (root : node)
  (execSync : execSync_t) (repoPath : path) :
  let o := options_of argv cwd in
  showHelp o = false ->
  existsSync root (searchPath o) = true ->
  In repoPath (findGitReposIn root (searchPath o) (maxDepth o)) ->
  hasChanges (getGitStatus execSync repoPath) = true ->
  exists b parts,
    branch_of (getGitStatus execSync repoPath) = Some b
    /\ In (entry_pending (Path.relative (searchPath o) repoPath) b parts)
         (printed_results (printed (main argv cwd root execSync))).
Proof.
  intros o Hh He Hin Hc.
  destruct (formatStatus_changes execSync repoPath (searchPath o) Hc)
    as (b & parts & Hb & Hf).
  exists b, parts. split; [exact Hb|].
  rewrite (printed_results_main argv cwd root execSync Hh He). fold o.
  apply in_flat_map. exists repoPath. split; [exact Hin|].
  unfold entries_of. rewrite Hf. left. reflexivity.
Qed.

Lemma main_changes_reported_witness :
  exists b parts,
    branch_of (getGitStatus exec_fifteen ["work"; "r11"]) = Some b
    /\ In (entry_pending ["r11"] b parts)
         (printed_results
            (printed (main ["node"; "git-pend"; "/work"] ["home"]
                        tree_fifteen exec_fifteen))).
Proof.
  apply (main_changes_reported ["node"; "git-pend"; "/work"] ["home"]
           tree_fifteen exec_fifteen ["work"; "r11"]); try reflexivity.
  vm_compute. do 10 right. left. reflexivity.
Defined.
